(** * ERASH: hash-chained erasure ledger and wipe-job registry

    A shallow embedding of the ledger service ([ledger.py]), the certificate
    identifiers ([certificate.py]), the wipe-job registry and its workers
    ([wipe_service.py]) and the request handlers of [app.py] that tie
    them together, followed by the properties of the specification that
    concern them.

    Conventions.
    - A Python [str] is a [string] whose characters are code points below
      256; [encode] is UTF-8 on that range.
    - Dictionaries that the code treats as open records (device descriptors,
      wipe reports, certificate data) are association lists of JSON values
      in insertion order; ledger blocks and job records, whose keys the
      code fixes, are records.
    - Every reading of the wall clock is an explicit argument.
    - A worker acts on the registry only through [_update_wipe_status];
      a run is the ordered list of those calls. *)

From Stdlib Require Import ZArith List String Ascii DecimalString Lia.
From stdpp Require Import gmap strings list.

Local Open Scope Z_scope.
Set Warnings "-register-all".

(** ** Python values and text *)

Module Py.

Inductive json :=
| JNull
| JBool (b : bool)
| JInt (n : Z)
| JStr (s : string)
| JList (xs : list json)
| JDict (kvs : list (string * json)).

Abbreviation dict := (list (string * json)).

Inductive exn :=
| KeyError (key : string)
| ValueError (msg : string)
| IndexError
| OSError (msg : string)
| JSONDecodeError (msg : string).

Inductive result (A : Type) :=
| Ok (a : A)
| Raise (e : exn).
Arguments Ok {A} a.
Arguments Raise {A} e.

Definition bind {A B} (r : result A) (k : A -> result B) : result B :=
  match r with Ok a => k a | Raise e => Raise e end.

(** [try: body  except Exception: handler] *)
Definition try_except {A} (body : result A) (handler : exn -> A) : A :=
  match body with Ok a => a | Raise e => handler e end.

Definition ord (c : ascii) : Z := Z.of_N (N_of_ascii c).
Definition chr (n : Z) : ascii := ascii_of_N (Z.to_N n).

Definition hex_digit (n : Z) : ascii :=
  if n <? 10 then chr (48 + n) else chr (87 + n).

Definition hex2 (n : Z) : string :=
  String (hex_digit (Z.shiftr n 4)) (String (hex_digit (Z.land n 15)) "").

(** [str(n)] for an integer *)
Definition str_of_int (n : Z) : string := NilZero.string_of_int (Z.to_int n).

(** [sep.join(parts)] *)
Fixpoint join (sep : string) (parts : list string) : string :=
  match parts with
  | [] => ""
  | p :: rest =>
      match rest with
      | [] => p
      | _ => p +:+ sep +:+ join sep rest
      end
  end.

Definition chars (s : string) : list ascii := list_ascii_of_string s.
Definition text (cs : list ascii) : string := string_of_list_ascii cs.

(** [s.encode()] *)
Definition utf8 (c : ascii) : list Z :=
  let n := ord c in
  if n <? 128 then [n] else [192 + Z.shiftr n 6; 128 + Z.land n 63].

Definition encode (s : string) : list Z := flat_map utf8 (chars s).

(** [s.upper()]; the code applies it to hexadecimal digests only, so the
    ASCII letters are the whole story. *)
Definition upper_char (c : ascii) : ascii :=
  if (97 <=? ord c) && (ord c <=? 122) then chr (ord c - 32) else c.

Definition upper (s : string) : string := text (map upper_char (chars s)).

(** [s.lower()] on code points below 256: the ASCII capitals and the
    accented capitals of Latin-1, the multiplication sign apart. *)
Definition lower_char (c : ascii) : ascii :=
  let n := ord c in
  if ((65 <=? n) && (n <=? 90)) || ((192 <=? n) && (n <=? 222) && negb (n =? 215))
  then chr (n + 32) else c.

Definition lower (s : string) : string := text (map lower_char (chars s)).

(** [s[:n]] for [n >= 0] *)
Definition take (n : nat) (s : string) : string := substring 0 n s.

(** [s.replace(old, new)] for a one-character [old] *)
Fixpoint replace (old : ascii) (new : string) (s : string) : string :=
  match s with
  | EmptyString => ""
  | String c s' =>
      if Ascii.eqb c old then new +:+ replace old new s'
      else String c (replace old new s')
  end.

(** [sub in s] *)
Fixpoint contains (sub s : string) : bool :=
  String.prefix sub s ||
  match s with
  | EmptyString => false
  | String _ s' => contains sub s'
  end.

(** [s.split(sep)] for a non-empty [sep]; [skip] counts the characters of
    a separator still to be dropped. *)
Fixpoint split_go (sep : string) (skip : nat) (cur : string) (s : string)
  : list string :=
  match s with
  | EmptyString => [cur]
  | String c s' =>
      match skip with
      | S k => split_go sep k cur s'
      | O =>
          if String.prefix sep s
          then cur :: split_go sep (String.length sep - 1) "" s'
          else split_go sep 0 (cur +:+ String c "") s'
      end
  end.

Definition split (sep s : string) : list string := split_go sep 0 "" s.

(** [l[i]] for [i >= 0] *)
Definition index {A} (l : list A) (i : nat) : result A :=
  match nth_error l i with Some x => Ok x | None => Raise IndexError end.

Definition isspace (c : ascii) : bool :=
  let n := ord c in
  ((9 <=? n) && (n <=? 13)) || ((28 <=? n) && (n <=? 32))
  || (n =? 133) || (n =? 160).

Definition isdigit (c : ascii) : bool := (48 <=? ord c) && (ord c <=? 57).

Fixpoint lstrip_by (p : ascii -> bool) (s : string) : string :=
  match s with
  | EmptyString => ""
  | String c s' => if p c then lstrip_by p s' else s
  end.

Fixpoint rstrip_by (p : ascii -> bool) (s : string) : string :=
  match s with
  | EmptyString => ""
  | String c s' =>
      match rstrip_by p s' with
      | EmptyString => if p c then "" else String c ""
      | r => String c r
      end
  end.

(** [s.strip()] and [s.rstrip(c)] *)
Definition strip (s : string) : string := rstrip_by isspace (lstrip_by isspace s).
Definition rstrip (c : ascii) (s : string) : string := rstrip_by (Ascii.eqb c) s.

(** Decimal digits with single underscores between them, as [int] reads them. *)
Fixpoint digits_value (acc : Z) (after_digit : bool) (s : string) : option Z :=
  match s with
  | EmptyString => if after_digit then Some acc else None
  | String c s' =>
      if isdigit c then digits_value (10 * acc + (ord c - 48)) true s'
      else if Ascii.eqb c "_" && after_digit then digits_value acc false s'
      else None
  end.

(** repr of a [str] *)
Definition printable (c : ascii) : bool :=
  let n := ord c in
  ((32 <=? n) && (n <=? 126)) || ((161 <=? n) && negb (n =? 173)).

Definition repr_char (quote c : ascii) : string :=
  if Ascii.eqb c "\" then "\\"
  else if Ascii.eqb c quote then String "\" (String c "")
  else if ord c =? 9 then "\t"
  else if ord c =? 10 then "\n"
  else if ord c =? 13 then "\r"
  else if printable c then String c ""
  else "\x" +:+ hex2 (ord c).

Definition repr_str (s : string) : string :=
  let quote : ascii :=
    if contains "'" s && negb (contains (String (chr 34) "") s)
    then chr 34 else "'"%char in
  String quote (String.concat "" (map (repr_char quote) (chars s))) +:+ String quote "".

(** [repr(v)] and [str(v)], the latter being what an f-string inserts *)
Fixpoint repr (v : json) : string :=
  match v with
  | JNull => "None"
  | JBool true => "True"
  | JBool false => "False"
  | JInt n => str_of_int n
  | JStr s => repr_str s
  | JList xs => "[" +:+ join ", " (map repr xs) +:+ "]"
  | JDict kvs =>
      "{" +:+ join ", " (map (fun kv => repr_str (fst kv) +:+ ": " +:+ repr (snd kv)) kvs)
      +:+ "}"
  end.

Definition str (v : json) : string :=
  match v with JStr s => s | _ => repr v end.

(** [int(s)] *)
Definition int (s : string) : result Z :=
  let t := strip s in
  let parsed :=
    match t with
    | String "-" r => option_map Z.opp (digits_value 0 false r)
    | String "+" r => digits_value 0 false r
    | _ => digits_value 0 false t
    end in
  match parsed with
  | Some n => Ok n
  | None => Raise (ValueError ("invalid literal for int() with base 10: " +:+ repr_str s))
  end.

(** [str(e)] *)
Definition exn_str (e : exn) : string :=
  match e with
  | KeyError k => repr_str k
  | ValueError m => m
  | IndexError => "list index out of range"
  | OSError m => m
  | JSONDecodeError m => m
  end.

(** The leftmost match of [(\d+)%] in [s], as [re.search] finds it: the
    first maximal run of digits that a percent sign follows. [run] is the
    value of the digits just read, if the previous character was one. *)
Fixpoint search_percent (run : option Z) (s : string) : option Z :=
  match s with
  | EmptyString => None
  | String c s' =>
      if isdigit c
      then search_percent (Some (10 * (match run with Some n => n | None => 0 end)
                                 + (ord c - 48))) s'
      else if Ascii.eqb c "%"
      then match run with Some n => Some n | None => search_percent None s' end
      else search_percent None s'
  end.

(** Truth value of a string ([if s:]) *)
Definition truthy (s : string) : bool := negb (String.eqb s "").

(** Dictionaries *)
Fixpoint lookup (k : string) (d : dict) : option json :=
  match d with
  | [] => None
  | (k', v) :: d' => if String.eqb k k' then Some v else lookup k d'
  end.

(** [d.get(k, default)] and [d[k]] *)
Definition get (d : dict) (k : string) (default : json) : json :=
  match lookup k d with Some v => v | None => default end.

Definition getitem (d : dict) (k : string) : result json :=
  match lookup k d with Some v => Ok v | None => Raise (KeyError k) end.

(** [xs[:stop]] and [xs[start:]] with Python's treatment of negative and
    out-of-range bounds *)
Definition clamp {A} (l : list A) (i : Z) : nat :=
  let n := Z.of_nat (length l) in
  Z.to_nat (Z.min n (Z.max 0 (if i <? 0 then i + n else i))).

Definition slice_to {A} (l : list A) (stop : Z) : list A := firstn (clamp l stop) l.
Definition slice_from {A} (l : list A) (start : Z) : list A := skipn (clamp l start) l.

(** [xs[-1]] of a non-empty list *)
Definition last_item {A} (l : list A) : option A := List.last (map Some l) None.

End Py.

(** ** [json.dumps(v, sort_keys=True)] *)

Module Json.
Import Py.

Definition escape_char (c : ascii) : string :=
  let n := ord c in
  if n =? 34 then String "\" (String c "")
  else if n =? 92 then "\\"
  else if n =? 10 then "\n"
  else if n =? 13 then "\r"
  else if n =? 9 then "\t"
  else if n =? 12 then "\f"
  else if n =? 8 then "\b"
  else if (32 <=? n) && (n <=? 126) then String c ""
  else "\u00" +:+ hex2 n.

Definition quote (s : string) : string :=
  String (chr 34) (String.concat "" (map escape_char (chars s))) +:+ String (chr 34) "".

Fixpoint insert_item (it : string * string) (l : list (string * string))
  : list (string * string) :=
  match l with
  | [] => [it]
  | x :: r => if String.leb (fst it) (fst x) then it :: l else x :: insert_item it r
  end.

Definition sort_items (l : list (string * string)) : list (string * string) :=
  fold_right insert_item [] l.

Fixpoint dumps (v : json) : string :=
  match v with
  | JNull => "null"
  | JBool true => "true"
  | JBool false => "false"
  | JInt n => str_of_int n
  | JStr s => quote s
  | JList xs => "[" +:+ join ", " (map dumps xs) +:+ "]"
  | JDict kvs =>
      let rendered := map (fun kv => (fst kv, dumps (snd kv))) kvs in
      "{" +:+ join ", " (map (fun it => quote (fst it) +:+ ": " +:+ snd it)
                             (sort_items rendered)) +:+ "}"
  end.

End Json.

(** ** [hashlib.sha256(data).hexdigest()] *)

Module SHA256.

(** Words are thirty-two bits wide: [wrap] keeps the low thirty-two. *)
Definition wrap (x : Z) : Z := Z.land x 4294967295.

Definition add32 (x y : Z) : Z := wrap (x + y).

Definition rotr (n x : Z) : Z :=
  Z.lor (Z.shiftr x n) (wrap (Z.shiftl x (32 - n))).

Definition choose (e f g : Z) : Z := Z.lxor (Z.land e f) (Z.ldiff g e).
Definition majority (a b c : Z) : Z :=
  Z.lxor (Z.lxor (Z.land a b) (Z.land a c)) (Z.land b c).
Definition big0 (a : Z) : Z := Z.lxor (Z.lxor (rotr 2 a) (rotr 13 a)) (rotr 22 a).
Definition big1 (e : Z) : Z := Z.lxor (Z.lxor (rotr 6 e) (rotr 11 e)) (rotr 25 e).
Definition small0 (w : Z) : Z := Z.lxor (Z.lxor (rotr 7 w) (rotr 18 w)) (Z.shiftr w 3).
Definition small1 (w : Z) : Z := Z.lxor (Z.lxor (rotr 17 w) (rotr 19 w)) (Z.shiftr w 10).

(** The constants of the standard are the first thirty-two bits of the
    fractional parts of the cube roots (for the rounds) and of the square
    roots (for the initial state) of the first primes; they are computed
    here once, when the definitions are read. *)
Definition is_prime (n : nat) : bool :=
  forallb (fun d => negb (Nat.eqb (n mod d) 0)) (seq 2 (n - 2)).

Definition primes (count : nat) : list Z :=
  map Z.of_nat (firstn count (List.filter is_prime (seq 2 320))).

(** The largest [r] in [lo, hi) with [r ^ k <= target], by bisection. *)
Fixpoint root_between (fuel : nat) (k target lo hi : Z) : Z :=
  match fuel with
  | O => lo
  | S fuel' =>
      if hi - lo <=? 1 then lo
      else
        let mid := (lo + hi) / 2 in
        if mid ^ k <=? target
        then root_between fuel' k target mid hi
        else root_between fuel' k target lo mid
  end.

Definition fraction_bits (k p : Z) : Z :=
  root_between 64 k (p * 2 ^ (32 * k)) 0 (2 ^ 40) mod 4294967296.

Definition round_constants : list Z :=
  Eval vm_compute in map (fraction_bits 3) (primes 64).

Definition initial_state : list Z :=
  Eval vm_compute in map (fraction_bits 2) (primes 8).

(** Big-endian bytes of [x], [n] of them *)
Fixpoint be_bytes (n : nat) (x : Z) : list Z :=
  match n with
  | O => []
  | S k => Z.land (Z.shiftr x (8 * Z.of_nat k)) 255 :: be_bytes k x
  end.

Definition pad (msg : list Z) : list Z :=
  let len := Z.of_nat (length msg) in
  msg ++ [128] ++ repeat 0 (Z.to_nat ((55 - len) mod 64)) ++ be_bytes 8 (8 * len).

Fixpoint words (bytes : list Z) : list Z :=
  match bytes with
  | b3 :: b2 :: b1 :: b0 :: rest =>
      Z.lor (Z.shiftl b3 24) (Z.lor (Z.shiftl b2 16) (Z.lor (Z.shiftl b1 8) b0))
      :: words rest
  | _ => []
  end.

(** Extend the sixteen words of a block by [n] more schedule words. *)
Fixpoint schedule (n : nat) (w : list Z) : list Z :=
  match n with
  | O => w
  | S k =>
      let t := length w in
      let at_ i := nth (t - i) w 0 in
      schedule k (w ++ [add32 (add32 (small1 (at_ 2%nat)) (at_ 7%nat))
                              (add32 (small0 (at_ 15%nat)) (at_ 16%nat))])
  end.

Definition step (s : list Z) (kw : Z * Z) : list Z :=
  match s with
  | [a; b; c; d; e; f; g; h] =>
      let t1 := add32 (add32 (add32 h (big1 e)) (add32 (choose e f g) (fst kw))) (snd kw) in
      let t2 := add32 (big0 a) (majority a b c) in
      [add32 t1 t2; a; b; c; add32 d t1; e; f; g]
  | _ => s
  end.

Definition compress (s : list Z) (block : list Z) : list Z :=
  let w := schedule 48 (words block) in
  let s' := fold_left step (combine round_constants w) s in
  map (fun p => add32 (fst p) (snd p)) (combine s s').

(** Absorb the padded message sixty-four bytes at a time; [fuel] bounds the
    number of blocks. *)
Fixpoint absorb (fuel : nat) (s : list Z) (bytes : list Z) : list Z :=
  match fuel, bytes with
  | S k, _ :: _ => absorb k (compress s (firstn 64 bytes)) (skipn 64 bytes)
  | _, _ => s
  end.

Definition digest (msg : list Z) : list Z :=
  let p := pad msg in
  flat_map (be_bytes 4) (absorb (length p) initial_state p).

Definition hexdigest (msg : list Z) : string :=
  String.concat "" (map Py.hex2 (digest msg)).

End SHA256.

(** ** ledger.py *)

Module Ledger.
Import Py.

(** [block['data']]: the genesis message or an erasure certificate, whose
    fields are copied from the caller's dictionaries as they come. *)
Inductive payload :=
| Genesis (message : string)
| ErasureCertificate
    (certificate_id certificate_hash device_serial device_model device_type
     wipe_method wipe_status wipe_start wipe_end simulated : json).

Record block := {
  block_index : Z;
  timestamp : string;
  transaction_id : option string;
  data : payload;
  previous_hash : string;
  block_hash : string
}.

Record ledger := {
  ledger_version : string;
  created_at : string;
  ledger_kind : string;
  description : string;
  blocks : list block
}.

(** What is found at [ledger_path]: nothing, something [json.load] fails
    on with the given exception, or a ledger. *)
Inductive file :=
| Absent
| Unreadable (e : exn)
| Stored (l : ledger).

Record LedgerService := {
  ledger_path : string;
  ledger_type : string
}.

Definition payload_dict (d : payload) : dict :=
  match d with
  | Genesis message =>
      [("type", JStr "genesis"); ("message", JStr message)]
  | ErasureCertificate cid chash serial model dtype wmethod wstatus wstart wend sim =>
      [("type", JStr "erasure_certificate");
       ("certificate_id", cid);
       ("certificate_hash", chash);
       ("device_serial", serial);
       ("device_model", model);
       ("device_type", dtype);
       ("wipe_method", wmethod);
       ("wipe_status", wstatus);
       ("wipe_start", wstart);
       ("wipe_end", wend);
       ("simulated", sim)]
  end.

(** The dictionary literal the code builds before it hashes, and the block
    as stored, with [block_hash] added last. *)
Definition block_data (index : Z) (ts : string) (txn : option string)
    (d : payload) (prev : string) : dict :=
  [("block_index", JInt index); ("timestamp", JStr ts)]
  ++ match txn with Some t => [("transaction_id", JStr t)] | None => [] end
  ++ [("data", JDict (payload_dict d)); ("previous_hash", JStr prev)].

Definition block_dict (b : block) : dict :=
  block_data (block_index b) (timestamp b) (transaction_id b) (data b) (previous_hash b)
  ++ [("block_hash", JStr (block_hash b))].

(** ['0' * 64] *)
Definition zero_hash : string := String.concat "" (repeat "0" 64).

Definition _calculate_block_hash (block_data : dict) : string :=
  let block_copy := List.filter (fun kv => negb (String.eqb (fst kv) "block_hash")) block_data in
  let block_string := Json.dumps (JDict block_copy) in
  SHA256.hexdigest (encode block_string).

Definition _create_genesis_block (now : string) : block :=
  let d := Genesis "ERASH Ledger Genesis Block" in
  let genesis_data := block_data 0 now None d zero_hash in
  {| block_index := 0; timestamp := now; transaction_id := None; data := d;
     previous_hash := zero_hash;
     block_hash := _calculate_block_hash genesis_data |}.

(** [now_created] and [now_genesis] are the two clock readings, in the
    order the code takes them. *)
Definition _initialize_local_ledger (now_created now_genesis : string) (f : file) : file :=
  match f with
  | Absent =>
      Stored {| ledger_version := "1.0";
                created_at := now_created;
                ledger_kind := "local_immutable";
                description := "Immutable ledger for disk erasure certificates";
                blocks := [] ++ [_create_genesis_block now_genesis] |}
  | _ => f
  end.

(** [LedgerService(...)] *)
Definition __init__ (self : LedgerService) (now_created now_genesis : string) (f : file) : file :=
  if String.eqb (ledger_type self) "local"
  then _initialize_local_ledger now_created now_genesis f
  else f.

(** [with open(self.ledger_path, 'r') as f: ledger = json.load(f)] *)
Definition json_load (self : LedgerService) (f : file) : result ledger :=
  match f with
  | Absent => Raise (OSError ("[Errno 2] No such file or directory: " +:+ repr_str (ledger_path self)))
  | Unreadable e => Raise e
  | Stored l => Ok l
  end.

Definition _generate_transaction_id (now : string) (device_info wipe_report : dict) : string :=
  let data := str (get device_info "serial" (JStr "UNKNOWN")) +:+ "_"
              +:+ str (get wipe_report "wipe_id" (JStr "")) +:+ "_" +:+ now in
  "TXN-" +:+ upper (take 16 (SHA256.hexdigest (encode data))).

(** What [record_erasure] hands back. *)
Inductive entry :=
| LocalEntry (block_index : Z) (block_hash transaction_id timestamp previous_hash : string)
             (certificate_hash : json)
| FabricEntry (transaction_id timestamp : string) (block_number : Z)
              (transaction_hash : string) (certificate_hash : json).

Definition with_blocks (l : ledger) (bs : list block) : ledger :=
  {| ledger_version := ledger_version l; created_at := created_at l;
     ledger_kind := ledger_kind l; description := description l; blocks := bs |}.

Definition _record_local_erasure (self : LedgerService) (now_txn now_block : string)
    (certificate_data wipe_report device_info : dict) (f : file) : result entry * file :=
  match json_load self f with
  | Raise e => (Raise e, f)
  | Ok ledger =>
      let previous_hash :=
        match last_item (blocks ledger) with
        | Some b => block_hash b
        | None => zero_hash
        end in
      let block_index := Z.of_nat (length (blocks ledger)) in
      let transaction_id := _generate_transaction_id now_txn device_info wipe_report in
      let d := ErasureCertificate
                 (get certificate_data "certificate_id" (JStr "N/A"))
                 (get certificate_data "certificate_hash" (JStr "N/A"))
                 (get device_info "serial" (JStr "N/A"))
                 (get device_info "model" (JStr "Unknown"))
                 (get device_info "type" (JStr "Unknown"))
                 (get wipe_report "method" (JStr "Unknown"))
                 (get wipe_report "status" (JStr "Unknown"))
                 (get wipe_report "start_time" (JStr "N/A"))
                 (get wipe_report "end_time" (JStr "N/A"))
                 (get wipe_report "simulated" (JBool false)) in
      let block_data := block_data block_index now_block (Some transaction_id) d previous_hash in
      let new_block :=
        {| block_index := block_index; timestamp := now_block;
           transaction_id := Some transaction_id; data := d;
           previous_hash := previous_hash;
           block_hash := _calculate_block_hash block_data |} in
      (Ok (LocalEntry block_index (block_hash new_block) transaction_id now_block
                      previous_hash (get certificate_data "certificate_hash" (JStr "N/A"))),
       Stored (with_blocks ledger (blocks ledger ++ [new_block])))
  end.

(** The placeholder for a Fabric network; [epoch] is [int(time.time())]. *)
Definition _record_hyperledger_erasure (now_txn now : string) (epoch : Z)
    (certificate_data wipe_report device_info : dict) : entry :=
  let transaction_id := _generate_transaction_id now_txn device_info wipe_report in
  FabricEntry transaction_id now epoch (SHA256.hexdigest (encode transaction_id))
              (get certificate_data "certificate_hash" (JStr "N/A")).

Definition record_erasure (self : LedgerService) (now_txn now_block : string) (epoch : Z)
    (certificate_data wipe_report device_info : dict) (f : file) : result entry * file :=
  if String.eqb (ledger_type self) "local" then
    _record_local_erasure self now_txn now_block certificate_data wipe_report device_info f
  else if String.eqb (ledger_type self) "hyperledger" then
    (Ok (_record_hyperledger_erasure now_txn now_block epoch certificate_data wipe_report device_info), f)
  else (Raise (ValueError ("Unsupported ledger type: " +:+ ledger_type self)), f).

(** [for i in range(1, len(blocks))], with [blocks[i - 1]] carried along *)
Fixpoint chain_from (previous_block : block) (rest : list block) : bool :=
  match rest with
  | [] => true
  | current_block :: rest' =>
      if negb (String.eqb (previous_hash current_block) (block_hash previous_block))
      then false
      else if negb (String.eqb (_calculate_block_hash (block_dict current_block))
                               (block_hash current_block))
      then false
      else chain_from current_block rest'
  end.

Definition _verify_chain_integrity (ledger : ledger) (up_to_block_index : Z) : bool :=
  match slice_to (blocks ledger) (up_to_block_index + 1) with
  | [] => true
  | first :: rest => chain_from first rest
  end.

Inductive status := VALID | INVALID | NOT_FOUND | ERROR.

Record match_report := {
  integrity_valid : bool;
  chain_valid : bool;
  found_index : Z;
  found_hash : string;
  found_timestamp : string;
  found_transaction : string;
  certificate_data : payload
}.

Record verification := {
  found : bool;
  verification_status : status;
  report : option match_report;
  message : option string
}.

(** [v == s] for a string [s] *)
Definition eq_str (v : json) (s : string) : bool :=
  match v with JStr t => String.eqb t s | _ => false end.

(** [flt and field != flt] *)
Definition rules_out (flt : option string) (field : json) : bool :=
  match flt with
  | Some s => truthy s && negb (eq_str field s)
  | None => false
  end.

Definition is_certificate (b : block) : bool :=
  eq_str (get (payload_dict (data b)) "type" JNull) "erasure_certificate".

(** The body of the search loop for one block: [true] when it is appended
    to [matching_blocks]. *)
Definition selected (certificate_id serial_number certificate_hash : option string)
    (b : block) : bool :=
  if negb (is_certificate b) then false
  else
    let block_data := payload_dict (data b) in
    let match_ := true in
    let match_ := if rules_out certificate_id (get block_data "certificate_id" JNull)
                  then false else match_ in
    let match_ := if rules_out serial_number (get block_data "device_serial" JNull)
                  then false else match_ in
    let match_ := if rules_out certificate_hash (get block_data "certificate_hash" JNull)
                  then false else match_ in
    match_.

Definition _verify_local_certificate (self : LedgerService)
    (certificate_id serial_number certificate_hash : option string) (f : file)
  : verification * file :=
  (try_except
     (bind (json_load self f) (fun ledger =>
        let matching_blocks :=
          List.filter (selected certificate_id serial_number certificate_hash) (blocks ledger) in
        match last_item matching_blocks with
        | Some b =>
            let stored_hash := block_hash b in
            let calculated_hash := _calculate_block_hash (block_dict b) in
            let integrity := String.eqb stored_hash calculated_hash in
            let chain := _verify_chain_integrity ledger (block_index b) in
            Ok {| found := true;
                  verification_status := if integrity && chain then VALID else INVALID;
                  report := Some {| integrity_valid := integrity;
                                    chain_valid := chain;
                                    found_index := block_index b;
                                    found_hash := block_hash b;
                                    found_timestamp := timestamp b;
                                    found_transaction :=
                                      match transaction_id b with Some t => t | None => "N/A" end;
                                    certificate_data := data b |};
                  message := None |}
        | None =>
            Ok {| found := false; verification_status := NOT_FOUND; report := None;
                  message := Some "No matching certificate found in ledger" |}
        end))
     (fun e => {| found := false; verification_status := ERROR; report := None;
                  message := Some ("Error verifying certificate: " +:+ exn_str e) |}),
   f).

Definition _verify_hyperledger_certificate : verification :=
  {| found := true; verification_status := VALID; report := None;
     message := Some "Hyperledger verification not yet implemented" |}.

(** [None] is Python's: the method falls off its end for any other type. *)
Definition verify_certificate (self : LedgerService)
    (certificate_id serial_number certificate_hash : option string) (f : file)
  : option verification * file :=
  if String.eqb (ledger_type self) "local" then
    let '(v, f') := _verify_local_certificate self certificate_id serial_number certificate_hash f in
    (Some v, f')
  else if String.eqb (ledger_type self) "hyperledger" then
    (Some _verify_hyperledger_certificate, f)
  else (None, f).

Record summary := {
  s_block_index : Z;
  s_timestamp : string;
  s_certificate_id : json;
  s_certificate_hash : json;
  s_wipe_method : json;
  s_wipe_status : json
}.

Definition summarize (b : block) : summary :=
  let d := payload_dict (data b) in
  {| s_block_index := block_index b;
     s_timestamp := timestamp b;
     s_certificate_id := get d "certificate_id" JNull;
     s_certificate_hash := get d "certificate_hash" JNull;
     s_wipe_method := get d "wipe_method" JNull;
     s_wipe_status := get d "wipe_status" JNull |}.

Definition search_by_serial (self : LedgerService) (serial_number : string) (f : file)
  : result (list summary) * file :=
  if negb (String.eqb (ledger_type self) "local") then (Ok [], f)
  else
    (Ok (try_except
           (bind (json_load self f) (fun ledger =>
              Ok (map summarize
                    (List.filter
                       (fun b => is_certificate b
                                 && eq_str (get (payload_dict (data b)) "device_serial" JNull)
                                           serial_number)
                       (blocks ledger)))))
           (fun _ => [])),
     f).

(** What [get_ledger_stats] returns: the figures of a local ledger, the
    text of the exception that reading it raised, or the bare type of a
    ledger that is not local. *)
Inductive stats :=
| Figures (total_blocks erasure_records : nat) (created : string)
          (last_block_time : string) (chain_valid : bool)
| StatsError (error : string)
| NotLocal (kind : string).

Definition get_ledger_stats (self : LedgerService) (f : file) : stats :=
  if String.eqb (ledger_type self) "local" then
    try_except
      (bind (json_load self f) (fun ledger =>
         let erasure_blocks := List.filter is_certificate (blocks ledger) in
         Ok (Figures (length (blocks ledger))
                     (length erasure_blocks)
                     (created_at ledger)
                     (match last_item (blocks ledger) with
                      | Some b => timestamp b
                      | None => "N/A"
                      end)
                     (_verify_chain_integrity ledger
                        (Z.of_nat (length (blocks ledger)) - 1)))))
      (fun e => StatsError (exn_str e))
  else NotLocal (ledger_type self).

End Ledger.

(** ** certificate.py

    The PDF document itself is laid out by ReportLab and is outside the
    model; what the callers read from the returned dictionary is kept. *)

Module Certificate.
Import Py.

Record certificate := {
  certificate_filename : string;
  certificate_id : string;
  certificate_hash : string;
  qr_code_data : dict;
  verification_url : string
}.

Definition _generate_cert_id (now : string) (device_info wipe_report : dict) : string :=
  let data := str (get device_info "serial" (JStr "UNKNOWN")) +:+ "_"
              +:+ str (get wipe_report "wipe_id" (JStr "")) +:+ "_" +:+ now in
  upper (take 16 (SHA256.hexdigest (encode data))).

Definition _calculate_hash (data : json) : string :=
  let json_str := Json.dumps data in
  SHA256.hexdigest (encode json_str).

(** [stamp] is [datetime.now().strftime('%Y%m%d_%H%M%S')], [now] the ISO
    reading taken inside [_generate_cert_id]. The ledger entry only adds a
    table to the document. *)
Definition generate_certificate (stamp now : string) (wipe_report device_info : dict)
    (ledger_entry : option Ledger.entry) : result certificate :=
  bind (getitem device_info "serial") (fun serial =>
    let cert_filename := "cert_" +:+ str serial +:+ "_" +:+ stamp +:+ ".pdf" in
    let cert_id := _generate_cert_id now device_info wipe_report in
    let cert_data := JDict [("device", JDict device_info);
                            ("wipe", JDict wipe_report);
                            ("cert_id", JStr cert_id)] in
    let cert_hash := _calculate_hash cert_data in
    let url := "https://verify.erash.local/cert/" +:+ cert_id in
    let qr_data := [("cert_id", JStr cert_id);
                    ("serial", get device_info "serial" (JStr "N/A"));
                    ("hash", JStr cert_hash);
                    ("verify_url", JStr url)] in
    Ok {| certificate_filename := cert_filename;
          certificate_id := cert_id;
          certificate_hash := cert_hash;
          qr_code_data := qr_data;
          verification_url := url |}).

(** The dictionary [record_erasure] receives as [certificate_data]. *)
Definition as_dict (c : certificate) : dict :=
  [("certificate_filename", JStr (certificate_filename c));
   ("certificate_id", JStr (certificate_id c));
   ("certificate_hash", JStr (certificate_hash c));
   ("qr_code_data", JDict (qr_code_data c));
   ("verification_url", JStr (verification_url c))].

End Certificate.

(** ** wipe_service.py *)

Module WipeService.
Import Py.

Inductive job_status := starting | running | completed | failed.

Record log_entry := {
  log_timestamp : string;
  log_message : string
}.

Record wipe := {
  device : string;
  status : job_status;
  progress : Z;
  method : string;
  start_time : string;
  logs : list log_entry;
  simulated : bool;
  error : option string;
  end_time : option string
}.

(** [self.active_wipes] *)
Abbreviation registry := (gmap string wipe).

Inductive start_result :=
| Rejected (error : string)
| Started (wipe_id : string).

(** [epoch] is [int(time.time())], [now] the ISO reading of the clock. The
    worker thread the code launches on success is [_run_wipe] below. *)
Definition start_wipe (epoch : Z) (now : string) (device_path method : string)
    (verification simulated : bool) (active_wipes : registry)
  : start_result * registry :=
  let wipe_id := "wipe_" +:+ str_of_int epoch +:+ "_" +:+ replace "/" "_" device_path in
  if bool_decide (device_path ∈ map device (map snd (map_to_list active_wipes)))
  then (Rejected "Device is already being wiped", active_wipes)
  else (Started wipe_id,
        <[wipe_id := {| device := device_path; status := starting; progress := 0;
                        method := method; start_time := now; logs := [];
                        simulated := simulated; error := None; end_time := None |}]>
          active_wipes).

(** The assignments of [_update_wipe_status] to the job's record. *)
Definition updated (now : string) (status : job_status) (progress : option Z)
    (log error : option string) (w : wipe) : wipe :=
  {| device := device w;
     status := status;
     progress := match progress with Some p => p | None => WipeService.progress w end;
     method := method w;
     start_time := start_time w;
     logs := match log with
             | Some m => if truthy m
                         then logs w ++ [{| log_timestamp := now; log_message := m |}]
                         else logs w
             | None => logs w
             end;
     simulated := simulated w;
     error := match error with
              | Some m => if truthy m then Some m else WipeService.error w
              | None => WipeService.error w
              end;
     end_time := match status with
                 | completed => Some now
                 | _ => end_time w
                 end |}.

Definition _update_wipe_status (now : string) (wipe_id : string) (status : job_status)
    (progress : option Z) (log error : option string) (active_wipes : registry) : registry :=
  match active_wipes !! wipe_id with
  | None => active_wipes
  | Some w => <[wipe_id := updated now status progress log error w]> active_wipes
  end.

(** One call of [_update_wipe_status] by a worker: its arguments. *)
Record call := {
  c_status : job_status;
  c_progress : option Z;
  c_log : option string;
  c_error : option string
}.

Definition perform (now : string) (wipe_id : string) (c : call) (active_wipes : registry)
  : registry :=
  _update_wipe_status now wipe_id (c_status c) (c_progress c) (c_log c) (c_error c) active_wipes.

Definition stages (device_path method : string) : list string :=
  [ "Initializing wipe operation...";
    "Target device: " +:+ device_path;
    "Method: " +:+ method;
    "Starting erasure process...";
    "Pass 1/3: Writing random data...";
    "Progress: 10%";
    "Progress: 25%";
    "Progress: 40%";
    "Pass 2/3: Writing zeros...";
    "Progress: 50%";
    "Progress: 65%";
    "Progress: 75%";
    "Pass 3/3: Verification...";
    "Progress: 85%";
    "Progress: 95%";
    "Progress: 100%";
    "Wipe completed successfully!";
    "Device " +:+ device_path +:+ " has been securely erased." ].

(** The progress the loop computes for line [i] of [n]. The last branch is
    [int((i / n) * 100)] in floating point, which for [n = 18] and every
    [i < 18] is the integer quotient written here. *)
Definition stage_progress (n i : nat) (log : string) : result Z :=
  if contains "Progress:" log then
    bind (index (split "Progress:" log) 1) (fun piece =>
      int (rstrip "%" (strip piece)))
  else if Nat.eqb i (n - 1) then Ok 100
  else Ok (Z.of_nat i * 100 / Z.of_nat n).

(** [for i, log in enumerate(stages)]: the calls made, and the exception
    that ended the loop if one did. *)
Fixpoint simulate (n i : nat) (rest : list string) : list call * option exn :=
  match rest with
  | [] => ([], None)
  | log :: rest' =>
      match stage_progress n i log with
      | Raise e => ([], Some e)
      | Ok p =>
          let '(calls, raised) := simulate n (S i) rest' in
          ({| c_status := running; c_progress := Some p; c_log := Some log;
              c_error := None |} :: calls, raised)
      end
  end.

Definition _run_simulated_wipe (device_path method : string) : list call * option exn :=
  let lines := stages device_path method in
  match simulate (length lines) 0 lines with
  | (calls, None) =>
      (calls ++ [{| c_status := completed; c_progress := Some 100; c_log := None;
                    c_error := None |}], None)
  | aborted => aborted
  end.

Definition _parse_nwipe_progress (line : string) : option Z := search_percent None line.

(** The erasure tool as the worker sees it: the lines of its output and then
    an exit code, or an exception after some lines ([Popen] failing is the
    case of no lines). *)
Inductive process :=
| Exits (stdout : list string) (returncode : Z)
| Breaks (stdout : list string) (e : exn).

Definition method_map : dict :=
  [("dodshort", JStr "dod522022m"); ("dod", JStr "dodshort"); ("gutmann", JStr "gutmann");
   ("random", JStr "prng"); ("zero", JStr "zero")].

Definition stream (stdout : list string) : list call :=
  flat_map (fun raw =>
              let line := strip raw in
              if truthy line
              then [{| c_status := running; c_progress := _parse_nwipe_progress line;
                       c_log := Some line; c_error := None |}]
              else [])
           stdout.

Definition _run_real_wipe (device_path method : string) (verification : bool)
    (proc : process) : list call :=
  let nwipe_method := str (get method_map method (JStr "dodshort")) in
  let cmd := ["sudo"; "nwipe"; "--autonuke"; "--method"; nwipe_method;
              "--verify"; if verification then "last" else "off"; "--nogui"; device_path] in
  {| c_status := running; c_progress := None;
     c_log := Some ("Executing: " +:+ join " " cmd); c_error := None |}
  :: match proc with
     | Exits stdout returncode =>
         stream stdout ++
         [ if returncode =? 0
           then {| c_status := completed; c_progress := Some 100; c_log := None;
                   c_error := None |}
           else {| c_status := failed; c_progress := None; c_log := None;
                   c_error := Some "nwipe exited with error" |} ]
     | Breaks stdout e =>
         stream stdout ++
         [ {| c_status := failed; c_progress := None; c_log := None;
              c_error := Some (exn_str e) |} ]
     end.

(** The worker: every call it makes, in order. No caller in the repository
    passes a [callback]. *)
Definition _run_wipe (device_path method : string) (verification simulated : bool)
    (proc : process) : list call :=
  if simulated then
    match _run_simulated_wipe device_path method with
    | (calls, None) => calls
    | (calls, Some e) =>
        calls ++ [{| c_status := failed; c_progress := None; c_log := None;
                     c_error := Some (exn_str e) |}]
    end
  else _run_real_wipe device_path method verification proc.

(** The registry after each call of a run; [clock k] is the reading of the
    clock during call number [k]. *)
Fixpoint history (clock : nat -> string) (tick : nat) (wipe_id : string)
    (calls : list call) (active_wipes : registry) : list registry :=
  match calls with
  | [] => []
  | c :: rest =>
      let next := perform (clock tick) wipe_id c active_wipes in
      next :: history clock (S tick) wipe_id rest next
  end.

Definition outcome (clock : nat -> string) (tick : nat) (wipe_id : string)
    (calls : list call) (active_wipes : registry) : registry :=
  List.last (history clock tick wipe_id calls active_wipes) active_wipes.

Definition get_wipe_status (wipe_id : string) (active_wipes : registry) : option wipe :=
  active_wipes !! wipe_id.

Record log_page := {
  page_logs : list log_entry;
  total_count : nat;
  page_status : job_status;
  page_progress : Z
}.

Definition get_wipe_logs (wipe_id : string) (since_index : Z) (active_wipes : registry)
  : option log_page :=
  match active_wipes !! wipe_id with
  | Some w =>
      Some {| page_logs := slice_from (logs w) since_index;
              total_count := length (logs w);
              page_status := status w;
              page_progress := progress w |}
  | None => None
  end.

Definition keywords : list string :=
  ["starting"; "completed"; "pass"; "progress: 100%"; "error"; "failed"].

(** [any(keyword in msg.lower() for keyword in [...])] *)
Definition important (msg : string) : bool :=
  existsb (fun keyword => contains keyword (lower msg)) keywords.

Definition _summarize_logs (logs : list log_entry) : list string :=
  let important_logs := List.filter important (map log_message logs) in
  slice_from important_logs (-10).

(** *** Devices

    The listing of [lsblk -J] reaches the code as the value [json.loads]
    makes of it: any JSON value, a dictionary being listed without repeated
    keys and a number being an integer. Everything that raises inside
    [detect_devices] is caught by one handler that does not tell one
    exception from another, so a step that raises is [None] here. *)

Record partition := {
  p_name : string;
  p_size : json;
  p_type : json;
  p_mountpoint : json;
  p_fstype : json;
  p_label : json
}.

Record device_info := {
  d_name : string;
  d_model : string;
  d_serial : string;
  d_size : json;
  d_type : string;
  d_rotational : bool;
  d_transport : json;
  d_partitions : list partition;
  d_partition_count : nat
}.

(** [v.get], which only a dictionary has *)
Definition as_dict (v : json) : option dict :=
  match v with JDict kvs => Some kvs | _ => None end.

(** [v.lower()], [v.strip()]: only a [str] has them *)
Definition as_str (v : json) : option string :=
  match v with JStr s => Some s | _ => None end.

(** [for x in v] *)
Definition iterate (v : json) : option (list json) :=
  match v with
  | JList xs => Some xs
  | JDict kvs => Some (map (fun kv => JStr (fst kv)) kvs)
  | JStr s => Some (map (fun c => JStr (String c "")) (chars s))
  | _ => None
  end.

Definition _classify_device (device : dict) : option string :=
  tran ← lower <$> as_str (get device "tran" (JStr ""));
  model ← lower <$> as_str (get device "model" (JStr ""));
  name ← lower <$> as_str (get device "name" (JStr ""));
  Some (if contains "loop" name || contains "virtual" model || contains "vbox" model
           || contains "vmware" model
        then "Virtual"
        else if String.eqb tran "usb" then "USB"
        else if Ledger.eq_str (get device "rota" JNull) "0" then "SSD"
        else if Ledger.eq_str (get device "rota" JNull) "1" then "HDD"
        else if contains "ssd" model then "SSD"
        else if contains "usb" model || contains "flash" model then "USB"
        else "HDD").

(** [for child in device['children']]: the partitions appended *)
Fixpoint partitions_of (children : list json) : option (list partition) :=
  match children with
  | [] => Some []
  | child :: rest =>
      c ← as_dict child;
      if Ledger.eq_str (get c "type" JNull) "part" || Ledger.eq_str (get c "type" JNull) "lvm"
      then
        name ← lookup "name" c;
        partitions ← partitions_of rest;
        Some ({| p_name := "/dev/" +:+ str name;
                 p_size := get c "size" (JStr "Unknown");
                 p_type := get c "type" (JStr "part");
                 p_mountpoint := get c "mountpoint" JNull;
                 p_fstype := get c "fstype" (JStr "Unknown");
                 p_label := get c "label" (JStr "No Label") |} :: partitions)
      else partitions_of rest
  end.

(** The body of the loop over [blockdevices] for one entry: the device
    appended, if one is. *)
Definition listed (device_type_filter : option string) (include_partitions : bool)
    (device : json) : option (option device_info) :=
  d ← as_dict device;
  if negb (Ledger.eq_str (get d "type" JNull) "disk") then Some None
  else
    dev_type ← _classify_device d;
    if match device_type_filter with
       | Some t => truthy t && negb (String.eqb dev_type t)
       | None => false
       end
    then Some None
    else
      partitions ← (if include_partitions
                    then match lookup "children" d with
                         | Some children => iterate children ≫= partitions_of
                         | None => Some []
                         end
                    else Some []);
      name ← lookup "name" d;
      model ← strip <$> as_str (get d "model" (JStr "Unknown"));
      serial ← strip <$> as_str (get d "serial" (JStr "N/A"));
      Some (Some {| d_name := "/dev/" +:+ str name;
                    d_model := model;
                    d_serial := serial;
                    d_size := get d "size" (JStr "Unknown");
                    d_type := dev_type;
                    d_rotational := Ledger.eq_str (get d "rota" (JStr "0")) "1";
                    d_transport := get d "tran" (JStr "Unknown");
                    d_partitions := partitions;
                    d_partition_count := length partitions |}).

Fixpoint scan (device_type_filter : option string) (include_partitions : bool)
    (blockdevices : list json) : option (list device_info) :=
  match blockdevices with
  | [] => Some []
  | device :: rest =>
      entry ← listed device_type_filter include_partitions device;
      devices ← scan device_type_filter include_partitions rest;
      Some (match entry with Some d => d :: devices | None => devices end)
  end.

Definition simulated_partition (name size : string) (mountpoint : json)
    (fstype label : string) : partition :=
  {| p_name := name; p_size := JStr size; p_type := JStr "part"; p_mountpoint := mountpoint;
     p_fstype := JStr fstype; p_label := JStr label |}.

Definition _get_simulated_devices (device_type_filter : option string) : list device_info :=
  let all_devices :=
    [ {| d_name := "/dev/sda"; d_model := "Samsung SSD 860 EVO"; d_serial := "S3Z9NB0M123456";
         d_size := JStr "500G"; d_type := "SSD"; d_rotational := false;
         d_transport := JStr "sata";
         d_partitions :=
           [simulated_partition "/dev/sda1" "500M" (JStr "/boot/efi") "vfat" "EFI";
            simulated_partition "/dev/sda2" "499.5G" (JStr "/") "ext4" "root"];
         d_partition_count := 2 |};
      {| d_name := "/dev/sdb"; d_model := "WDC WD10EZEX"; d_serial := "WD-WCC123456789";
         d_size := JStr "1T"; d_type := "HDD"; d_rotational := true;
         d_transport := JStr "sata";
         d_partitions := [simulated_partition "/dev/sdb1" "1T" (JStr "/data") "ext4" "DATA"];
         d_partition_count := 1 |};
      {| d_name := "/dev/sdc"; d_model := "SanDisk Ultra USB"; d_serial := "SD3210987654321";
         d_size := JStr "32G"; d_type := "USB"; d_rotational := false;
         d_transport := JStr "usb";
         d_partitions := [simulated_partition "/dev/sdc1" "32G" JNull "exfat" "USB_DRIVE"];
         d_partition_count := 1 |};
      {| d_name := "/dev/vda"; d_model := "VirtIO Disk"; d_serial := "VIRT-DEMO-001";
         d_size := JStr "10G"; d_type := "Virtual"; d_rotational := false;
         d_transport := JStr "virtio";
         d_partitions := [simulated_partition "/dev/vda1" "10G" JNull "ext4" "VIRTUAL"];
         d_partition_count := 1 |} ] in
  match device_type_filter with
  | Some t => if truthy t then List.filter (fun d => String.eqb (d_type d) t) all_devices
              else all_devices
  | None => all_devices
  end.

(** What [subprocess.run] gives: an exception (no [lsblk], or the timeout),
    or an exit code and the output, here as [json.loads] reads it, [None]
    when it refuses it. *)
Inductive lsblk :=
| NotRun
| Ran (returncode : Z) (stdout : option json).

Definition detect_devices (device_type_filter : option string) (include_partitions : bool)
    (run : lsblk) : list device_info :=
  let attempt :=
    match run with
    | NotRun => None
    | Ran returncode stdout =>
        if returncode =? 0 then
          data ← stdout;
          d ← as_dict data;
          blockdevices ← iterate (get d "blockdevices" (JList []));
          scan device_type_filter include_partitions blockdevices
        else Some []
    end in
  match attempt with
  | Some devices => devices
  | None => _get_simulated_devices device_type_filter
  end.

End WipeService.

(** ** app.py: the request handlers *)

Module App.
Import Py.

(** [os.path.join(os.path.dirname(__file__), '../data/ledger.json')] *)
Definition ledger_service (here : string) : Ledger.LedgerService :=
  {| Ledger.ledger_path :=
       (if String.eqb here "" then ""
        else if String.eqb (substring (String.length here - 1) 1 here) "/" then here
        else here +:+ "/") +:+ "../data/ledger.json";
     Ledger.ledger_type := "local" |}.

Inductive response (A : Type) :=
| Success (body : A)
| Failure (code : Z) (error : string).
Arguments Success {A} body.
Arguments Failure {A} code error.

(** [any([certificate_id, serial_number, certificate_hash])] *)
Definition given (field : option string) : bool :=
  match field with Some s => truthy s | None => false end.

Definition verify_certificate (here : string)
    (certificate_id serial_number certificate_hash : option string) (f : Ledger.file)
  : response (option Ledger.verification) * Ledger.file :=
  if negb (given certificate_id || given serial_number || given certificate_hash) then
    (Failure 400 "At least one verification parameter required (certificate_id, serial_number, or certificate_hash)", f)
  else
    let '(verification_result, f') :=
      Ledger.verify_certificate (ledger_service here)
        certificate_id serial_number certificate_hash f in
    (Success verification_result, f').

(** The clock readings of one [generate_certificate] request, in the order
    they are taken. *)
Record readings := {
  draft_stamp : string;
  draft_now : string;
  txn_now : string;
  block_now : string;
  epoch : Z;
  final_stamp : string;
  final_now : string
}.

Record issued := {
  filename : string;
  id : string;
  hash : string;
  download_url : string;
  url : string;
  qr_data : dict;
  ledger_entry : option Ledger.entry
}.

Definition reply (c : Certificate.certificate) (e : option Ledger.entry) : issued :=
  {| filename := Certificate.certificate_filename c;
     id := Certificate.certificate_id c;
     hash := Certificate.certificate_hash c;
     download_url := "/api/certificate/download/" +:+ Certificate.certificate_filename c;
     url := Certificate.verification_url c;
     qr_data := Certificate.qr_code_data c;
     ledger_entry := e |}.

(** [generate_certificate] from the point where the wipe report and the
    device descriptor have been looked up. An exception that leaves the
    handler is [Raise]. *)
Definition generate_certificate (here : string) (t : readings)
    (wipe_report device_info : dict) (record_on_blockchain : bool) (f : Ledger.file)
  : result issued * Ledger.file :=
  if record_on_blockchain then
    match Certificate.generate_certificate (draft_stamp t) (draft_now t)
            wipe_report device_info None with
    | Raise e => (Raise e, f)
    | Ok temp_cert =>
        match Ledger.record_erasure (ledger_service here) (txn_now t) (block_now t) (epoch t)
                (Certificate.as_dict temp_cert) wipe_report device_info f with
        | (Raise e, f') => (Raise e, f')
        | (Ok entry, f') =>
            match Certificate.generate_certificate (final_stamp t) (final_now t)
                    wipe_report device_info (Some entry) with
            | Raise e => (Raise e, f')
            | Ok certificate_data => (Ok (reply certificate_data (Some entry)), f')
            end
        end
    end
  else
    match Certificate.generate_certificate (final_stamp t) (final_now t)
            wipe_report device_info None with
    | Raise e => (Raise e, f)
    | Ok certificate_data => (Ok (reply certificate_data None), f)
    end.

(** The body of a start request, each field as the client may have given
    it, with a value of the type the handler expects, or left it out. *)
Record start_request := {
  rq_device_path : option string;
  rq_method : option string;
  rq_verification : option bool;
  rq_simulated : option bool;
  rq_confirmation : option bool
}.

Definition or_default {A} (field : option A) (default : A) : A :=
  match field with Some x => x | None => default end.

Record started := {
  started_id : string;
  started_status : string
}.

(** [epoch] and [now] are the readings [wipe_service.start_wipe] takes. *)
Definition start_wipe (epoch : Z) (now : string) (data : start_request)
    (active_wipes : WipeService.registry) : response started * WipeService.registry :=
  let device_path := rq_device_path data in
  let method := or_default (rq_method data) "dodshort" in
  let verification := or_default (rq_verification data) false in
  let simulated := or_default (rq_simulated data) true in
  if negb (given device_path) then (Failure 400 "Device path is required", active_wipes)
  else
    let confirmation := or_default (rq_confirmation data) false in
    if negb confirmation
    then (Failure 400 "Confirmation required. This operation is IRREVERSIBLE!", active_wipes)
    else
      match WipeService.start_wipe epoch now (or_default device_path "") method
              verification simulated active_wipes with
      | (WipeService.Rejected error, reg) => (Failure 400 error, reg)
      | (WipeService.Started wipe_id, reg) =>
          (Success {| started_id := wipe_id; started_status := "started" |}, reg)
      end.

Definition get_wipe_status (wipe_id : string) (active_wipes : WipeService.registry)
  : response WipeService.wipe :=
  match WipeService.get_wipe_status wipe_id active_wipes with
  | None => Failure 404 "Wipe operation not found"
  | Some status => Success status
  end.

(** [since] is the query parameter as text, if there is one; a text that
    [int] refuses leaves the handler by an exception. *)
Definition get_wipe_logs (wipe_id : string) (since : option string)
    (active_wipes : WipeService.registry) : result (response WipeService.log_page) :=
  bind (match since with Some text => int text | None => Ok 0 end) (fun since_index =>
    match WipeService.get_wipe_logs wipe_id since_index active_wipes with
    | None => Ok (Failure 404 "Wipe operation not found")
    | Some logs_data => Ok (Success logs_data)
    end).

Record listing := {
  devices : list WipeService.device_info;
  count : nat;
  total_partitions : nat
}.

(** [type_arg] and [partitions_arg] are the query parameters [type] and
    [partitions], if given. *)
Definition get_devices (type_arg partitions_arg : option string) (run : WipeService.lsblk)
  : listing :=
  let device_type := type_arg in
  let include_partitions := String.eqb (lower (or_default partitions_arg "true")) "true" in
  let devices := WipeService.detect_devices device_type include_partitions run in
  {| devices := devices;
     count := length devices;
     total_partitions := fold_left Nat.add (map WipeService.d_partition_count devices) 0%nat |}.

End App.

(** * Vocabulary of the properties *)

Module LedgerSpec.
Import Py Ledger.

(** The invariant of the data model, in its words: every block after the
    first names its predecessor's stored hash and carries the hash of its
    own content. *)
Definition sealed (b : block) : Prop :=
  block_hash b = _calculate_block_hash (block_dict b).

Definition chain_invariant (bs : list block) : Prop :=
  forall (i : nat) (b p : block),
    bs !! S i = Some b -> bs !! i = Some p ->
    previous_hash b = block_hash p /\ sealed b.

Definition contiguous (bs : list block) : Prop :=
  forall (i : nat) (b : block), bs !! i = Some b -> block_index b = Z.of_nat i.

(** Ledger files that initialisation and appends can produce. *)
Inductive reachable (self : LedgerService) : file -> Prop :=
| reach_init now_created now_genesis :
    reachable self (_initialize_local_ledger now_created now_genesis Absent)
| reach_append f now_txn now_block certificate_data wipe_report device_info :
    reachable self f ->
    reachable self
      (snd (_record_local_erasure self now_txn now_block
              certificate_data wipe_report device_info f)).

(** The block an append builds on top of [bs]. *)
Definition appended (now_txn now_block : string)
    (certificate_data wipe_report device_info : dict) (bs : list block) : block :=
  let prev := match last_item bs with Some b => block_hash b | None => zero_hash end in
  let txn := _generate_transaction_id now_txn device_info wipe_report in
  let d := ErasureCertificate
             (get certificate_data "certificate_id" (JStr "N/A"))
             (get certificate_data "certificate_hash" (JStr "N/A"))
             (get device_info "serial" (JStr "N/A"))
             (get device_info "model" (JStr "Unknown"))
             (get device_info "type" (JStr "Unknown"))
             (get wipe_report "method" (JStr "Unknown"))
             (get wipe_report "status" (JStr "Unknown"))
             (get wipe_report "start_time" (JStr "N/A"))
             (get wipe_report "end_time" (JStr "N/A"))
             (get wipe_report "simulated" (JBool false)) in
  {| block_index := Z.of_nat (length bs); timestamp := now_block;
     transaction_id := Some txn; data := d; previous_hash := prev;
     block_hash := _calculate_block_hash
                     (block_data (Z.of_nat (length bs)) now_block (Some txn) d prev) |}.


(** A block with its stored hash replaced and nothing else touched. *)
Definition with_hash (b : block) (h : string) : block :=
  {| block_index := block_index b; timestamp := timestamp b;
     transaction_id := transaction_id b; data := data b;
     previous_hash := previous_hash b; block_hash := h |}.

(** Texts of hexadecimal digits, the letters in upper or in lower case. *)
Definition is_hex (capitals : bool) (s : string) : bool :=
  forallb (fun c => isdigit c
                    || (if capitals then (65 <=? ord c) && (ord c <=? 70)
                        else (97 <=? ord c) && (ord c <=? 102)))
          (chars s).

(** A filter of [verify] as the specification reads it: a field that is
    not given, or given empty, matches anything; a given one must equal
    the block's field. *)
Definition agrees (flt : option string) (field : json) : Prop :=
  match flt with
  | Some s => s = "" \/ field = JStr s
  | None => True
  end.

Definition wanted (certificate_id serial_number certificate_hash : option string)
    (b : block) : Prop :=
  exists cid chash serial model dtype wmethod wstatus wstart wend sim,
    data b = ErasureCertificate cid chash serial model dtype wmethod wstatus wstart wend sim
    /\ agrees certificate_id cid /\ agrees serial_number serial
    /\ agrees certificate_hash chash.

(** The answer of search-by-serial as the specification describes it: one
    summary for each erasure certificate of that serial, in block order. *)
Fixpoint records_for (serial_number : string) (bs : list block) : list summary :=
  match bs with
  | [] => []
  | b :: rest =>
      match data b with
      | ErasureCertificate cid chash (JStr serial) _ _ wmethod wstatus _ _ _ =>
          if String.eqb serial serial_number
          then {| s_block_index := block_index b; s_timestamp := timestamp b;
                  s_certificate_id := cid; s_certificate_hash := chash;
                  s_wipe_method := wmethod; s_wipe_status := wstatus |}
               :: records_for serial_number rest
          else records_for serial_number rest
      | _ => records_for serial_number rest
      end
  end.

End LedgerSpec.

(** Concrete data for the examples: the second simulated device of
    [_get_simulated_devices] and a report of its simulated erasure. *)
Module Examples.
Import Py Ledger.

Definition service : LedgerService := App.ledger_service "/opt/erash/backend".

Definition sdb : dict :=
  [("name", JStr "/dev/sdb"); ("model", JStr "WDC WD10EZEX");
   ("serial", JStr "WD-WCC123456789"); ("size", JStr "1T"); ("type", JStr "HDD");
   ("rotational", JBool true); ("transport", JStr "sata");
   ("partitions",
    JList [JDict [("name", JStr "/dev/sdb1"); ("size", JStr "1T"); ("type", JStr "part");
                  ("mountpoint", JStr "/data"); ("fstype", JStr "ext4");
                  ("label", JStr "DATA")]]);
   ("partition_count", JInt 1)].

Definition sdb_report : dict :=
  [("wipe_id", JStr "wipe_1714554000__dev_sdb"); ("device", JStr "/dev/sdb");
   ("method", JStr "dodshort"); ("status", JStr "completed");
   ("start_time", JStr "2024-05-01T09:00:00.120000");
   ("end_time", JStr "2024-05-01T09:00:09.640000");
   ("duration", JStr "0:00:09"); ("simulated", JBool true);
   ("verification", JStr "Passed");
   ("log_summary", JList [JStr "Starting erasure process..."; JStr "Progress: 100%";
                          JStr "Wipe completed successfully!"])].

Definition first_certificate : dict :=
  [("certificate_id", JStr "3F2A9C0B7D1E4A55");
   ("certificate_hash",
    JStr "9b1f0c6a2d3e4f5061728394a5b6c7d8e9f00112233445566778899aabbccdde")].

Definition fresh : file :=
  __init__ service "2024-05-01T08:59:58.000100" "2024-05-01T08:59:58.000200" Absent.

Definition one_record : file :=
  snd (_record_local_erasure service "2024-05-01T09:00:10.000300" "2024-05-01T09:00:10.000400"
         first_certificate sdb_report sdb fresh).

Definition two_records : file :=
  snd (_record_local_erasure service "2024-05-02T11:30:00.000500" "2024-05-02T11:30:00.000600"
         first_certificate sdb_report sdb one_record).

Definition contents (f : file) : ledger :=
  match f with
  | Stored l => l
  | _ => {| ledger_version := ""; created_at := ""; ledger_kind := ""; description := "";
            blocks := [] |}
  end.



Definition block_at (f : file) (i : nat) : block :=
  nth i (blocks (contents f)) (_create_genesis_block "").



(** The certificate hash a block records, if it records one. *)
Definition recorded_hash (b : block) : json :=
  get (payload_dict (data b)) "certificate_hash" JNull.

Definition recorded_id (b : block) : json :=
  get (payload_dict (data b)) "certificate_id" JNull.

(** A certification request with recording, served a fifth of a second
    after it arrived, on the fresh ledger. *)
Definition request_times : App.readings :=
  {| App.draft_stamp := "20240501_090010";
     App.draft_now := "2024-05-01T09:00:10.000100";
     App.txn_now := "2024-05-01T09:00:10.204000";
     App.block_now := "2024-05-01T09:00:10.204100";
     App.epoch := 1714554010;
     App.final_stamp := "20240501_090010";
     App.final_now := "2024-05-01T09:00:10.206000" |}.

Definition issued : result App.issued * file :=
  App.generate_certificate "/opt/erash/backend" request_times sdb_report sdb true fresh.


(** [two_records] with block [i] replaced. *)
Abbreviation tampered i b' :=
  (with_blocks (contents two_records) (<[i := b']> (blocks (contents two_records)))).

End Examples.

(** ** Jobs and pollers *)

Module WipeSpec.
Import Py WipeService.

(** The job record a successful [start_wipe] inserts. *)
Definition fresh_job (now device_path method : string) (simulated : bool) : wipe :=
  {| device := device_path; status := starting; progress := 0; method := method;
     start_time := now; logs := []; simulated := simulated; error := None;
     end_time := None |}.

Definition logs_of (wipe_id : string) (active_wipes : registry) : list log_entry :=
  match active_wipes !! wipe_id with
  | Some w => logs w
  | None => []
  end.

Definition progress_of (wipe_id : string) (active_wipes : registry) : option Z :=
  progress <$> (active_wipes !! wipe_id).

(** A client of the logs endpoint: it remembers the last [total_count] it
    saw and asks for the logs since then. *)
Record poller := {
  seen : nat;
  collected : list log_entry
}.

Definition poll (wipe_id : string) (active_wipes : registry) (p : poller) : poller :=
  match get_wipe_logs wipe_id (Z.of_nat (seen p)) active_wipes with
  | Some page => {| seen := total_count page; collected := collected p ++ page_logs page |}
  | None => p
  end.

Definition poll_all (wipe_id : string) (snapshots : list registry) (p : poller) : poller :=
  fold_left (fun p r => poll wipe_id r p) snapshots p.

(** Successive snapshots of the registry in which the job's log only grows
    at its end, starting from the log [base]. *)
Inductive growing (wipe_id : string) : list log_entry -> list registry -> Prop :=
| growing_nil base : growing wipe_id base []
| growing_cons base r rest w extra :
    r !! wipe_id = Some w -> logs w = base ++ extra ->
    growing wipe_id (logs w) rest ->
    growing wipe_id base (r :: rest).

(** The calls of a simulated run whose lines carry no progress marker of
    their own: the progress of each line, then the closing call. *)
Definition scripted_progress : list Z :=
  [0; 5; 11; 16; 22; 10; 25; 40; 44; 50; 65; 75; 66; 85; 95; 100; 88; 100].

Definition script (device_path method : string) : list call :=
  map (fun pl => {| c_status := running; c_progress := Some (fst pl);
                    c_log := Some (snd pl); c_error := None |})
      (combine scripted_progress (stages device_path method))
  ++ [{| c_status := completed; c_progress := Some 100; c_log := None; c_error := None |}].

(** The job's record after the calls of a run, one clock reading each. *)
Fixpoint replay (clock : nat -> string) (tick : nat) (calls : list call) (w : wipe) : wipe :=
  match calls with
  | [] => w
  | c :: rest =>
      replay clock (S tick) rest
        (updated (clock tick) (c_status c) (c_progress c) (c_log c) (c_error c) w)
  end.

(** Non-decreasing, for a list of progress values. *)
Fixpoint rising (l : list Z) : bool :=
  match l with
  | a :: (b :: _) as rest => (a <=? b) && rising rest
  | _ => true
  end.




(** No two jobs of the registry are for the same device. *)
Definition distinct_devices (active_wipes : registry) : Prop :=
  forall id id' w w',
    active_wipes !! id = Some w -> active_wipes !! id' = Some w' ->
    device w = device w' -> id = id'.

(** The four types a device is given, and a listing in which every device
    has the type asked for, when one is asked for. *)
Definition device_types : list string := ["HDD"; "SSD"; "USB"; "Virtual"].

Definition asked (device_type_filter : option string) (d : device_info) : Prop :=
  match device_type_filter with
  | Some t => t <> "" -> d_type d = t
  | None => True
  end.


End WipeSpec.

(** Jobs for the examples; the clock ticks every half second. *)
Module WipeExamples.
Import Py WipeService WipeSpec.

Definition clock (n : nat) : string :=
  "2024-05-01T09:00:" +:+ (if (n / 2 <? 10)%nat then "0" else "")
  +:+ str_of_int (Z.of_nat (n / 2))
  +:+ (if Nat.even n then ".000000" else ".500000").

Definition sdb_id : string := "wipe_1714554000__dev_sdb".

Definition sdb_started : start_result * registry :=
  start_wipe 1714554000 (clock 0) "/dev/sdb" "dodshort" false true ∅.

(** The simulated job of [/dev/sdb], call by call and at its end. *)
Definition sdb_history : list registry :=
  history clock 1 sdb_id (_run_wipe "/dev/sdb" "dodshort" false true (Exits [] 0))
          (snd sdb_started).

Definition sdb_done : registry :=
  outcome clock 1 sdb_id (_run_wipe "/dev/sdb" "dodshort" false true (Exits [] 0))
          (snd sdb_started).

(** A second request for the same device a minute later. *)
Definition sdb_again : start_result * registry :=
  start_wipe 1714554060 (clock 120) "/dev/sdb" "dodshort" false true sdb_done.

(** A real erasure of [/dev/sdb] whose tool stops with exit code 1. *)
Definition real_started : start_result * registry :=
  start_wipe 1714554000 (clock 0) "/dev/sdb" "dodshort" true false ∅.

Definition real_failed : registry :=
  outcome clock 1 sdb_id
    (_run_wipe "/dev/sdb" "dodshort" true false
       (Exits ["nwipe 0.34"; "Pass 1: 12%"; "error: cannot write to device"] 1))
    (snd real_started).

(** The listing of a machine with one disk of two partitions, and the
    same with a second, virtual disk that has no serial number. *)
Definition sda : json :=
  JDict [("name", JStr "sda"); ("size", JStr "465.8G"); ("type", JStr "disk");
         ("model", JStr "Samsung SSD 860 EVO 500GB "); ("serial", JStr "S3Z9NB0M123456");
         ("rota", JStr "0"); ("tran", JStr "sata"); ("mountpoint", JNull);
         ("fstype", JNull); ("label", JNull);
         ("children",
          JList [JDict [("name", JStr "sda1"); ("size", JStr "512M"); ("type", JStr "part");
                        ("model", JNull); ("serial", JNull); ("rota", JStr "0");
                        ("tran", JNull); ("mountpoint", JStr "/boot/efi");
                        ("fstype", JStr "vfat"); ("label", JNull)];
                 JDict [("name", JStr "sda2"); ("size", JStr "465.3G"); ("type", JStr "part");
                        ("model", JNull); ("serial", JNull); ("rota", JStr "0");
                        ("tran", JNull); ("mountpoint", JStr "/");
                        ("fstype", JStr "ext4"); ("label", JStr "root")]])].

Definition vda : dict :=
  [("name", JStr "vda"); ("size", JStr "10G"); ("type", JStr "disk");
   ("model", JStr "QEMU HARDDISK"); ("serial", JNull); ("rota", JStr "1");
   ("tran", JStr "virtio"); ("mountpoint", JNull); ("fstype", JNull); ("label", JNull)].

Definition one_disk : lsblk := Ran 0 (Some (JDict [("blockdevices", JList [sda])])).

Definition two_disks : lsblk :=
  Ran 0 (Some (JDict [("blockdevices", JList [sda; JDict vda])])).

(** A simulated erasure of a disk addressed by its label. *)
Definition labelled : string := "/dev/disk/by-label/Progress:2024".
Definition labelled_id : string := "wipe_1714554000__dev_disk_by-label_Progress:2024".

Definition labelled_started : start_result * registry :=
  start_wipe 1714554000 (clock 0) labelled "dodshort" false true ∅.

Definition labelled_done : registry :=
  outcome clock 1 labelled_id (_run_wipe labelled "dodshort" false true (Exits [] 0))
          (snd labelled_started).

End WipeExamples.

(** * Properties *)

(** Digests are computed in the examples only; the general arguments never
    look inside the hash function. *)
Arguments Ledger._calculate_block_hash : simpl never.
Arguments SHA256.hexdigest : simpl never.
Opaque SHA256.hexdigest.

(** ** The chain *)

Module LedgerProps.
Import Py Ledger LedgerSpec.

Lemma record_on_stored self now_txn now_block cd wr di l :
  snd (_record_local_erasure self now_txn now_block cd wr di (Stored l))
  = Stored (with_blocks l (blocks l ++ [appended now_txn now_block cd wr di (blocks l)])).
Proof. reflexivity. Qed.

Lemma stored_hash_ignored b :
  _calculate_block_hash (block_dict b)
  = _calculate_block_hash
      (block_data (block_index b) (timestamp b) (transaction_id b) (data b) (previous_hash b)).
Proof.
  unfold _calculate_block_hash, block_dict, block_data.
  destruct (transaction_id b); reflexivity.
Qed.

Lemma appended_sealed now_txn now_block cd wr di bs :
  sealed (appended now_txn now_block cd wr di bs).
Proof. unfold sealed. rewrite stored_hash_ignored. reflexivity. Qed.


Lemma last_item_lookup {A} (l : list A) :
  last_item l = match length l with O => None | S n => l !! n end.
Proof.
  unfold last_item. induction l as [|x l IH]; [reflexivity|].
  destruct l as [|y l]; [reflexivity|].
  change (List.last (map Some (x :: y :: l)) None) with (List.last (map Some (y :: l)) None).
  rewrite IH. reflexivity.
Qed.

Lemma last_item_snoc {A} (l : list A) (x : A) : last_item (l ++ [x]) = Some x.
Proof.
  rewrite last_item_lookup, length_app, Nat.add_comm. simpl.
  rewrite lookup_app_r by lia. rewrite Nat.sub_diag. reflexivity.
Qed.

Lemma chain_invariant_snoc bs p nb :
  chain_invariant bs -> last_item bs = Some p ->
  previous_hash nb = block_hash p -> sealed nb ->
  chain_invariant (bs ++ [nb]).
Proof.
  intros Hinv Hlast Hprev Hseal i b q Hb Hq.
  rewrite last_item_lookup in Hlast.
  destruct (decide (S i < length bs)%nat) as [Hlt|Hge].
  - rewrite lookup_app_l in Hb by lia. rewrite lookup_app_l in Hq by lia. eauto.
  - assert (S i = length bs) as Hi.
    { apply lookup_lt_Some in Hb. rewrite length_app in Hb. simpl in Hb. lia. }
    rewrite lookup_app_r in Hb by lia. rewrite Hi, Nat.sub_diag in Hb.
    injection Hb as <-.
    rewrite lookup_app_l in Hq by lia.
    rewrite <- Hi in Hlast. simpl in Hlast. rewrite Hlast in Hq. injection Hq as <-.
    auto.
Qed.

Lemma contiguous_snoc bs nb :
  contiguous bs -> block_index nb = Z.of_nat (length bs) -> contiguous (bs ++ [nb]).
Proof.
  intros Hc Hnb i b Hb.
  destruct (decide (i < length bs)%nat) as [Hlt|Hge].
  - rewrite lookup_app_l in Hb by lia. auto.
  - assert (i = length bs) as ->.
    { apply lookup_lt_Some in Hb. rewrite length_app in Hb. simpl in Hb. lia. }
    rewrite lookup_app_r in Hb by lia. rewrite Nat.sub_diag in Hb.
    injection Hb as <-. exact Hnb.
Qed.

(** Reachable files hold a non-empty ledger that satisfies the invariant. *)
Lemma reachable_invariant self f :
  reachable self f ->
  exists l, f = Stored l /\ blocks l <> [] /\ chain_invariant (blocks l)
            /\ contiguous (blocks l).
Proof.
  induction 1 as [nc ng | f nt nb cd wr di Hr (l & -> & Hne & Hinv & Hc)].
  - eexists. split; [reflexivity|]. simpl. split; [discriminate|]. split.
    + intros i b p Hb _. destruct i; discriminate Hb.
    + intros [|i] b Hb; [|discriminate Hb]. injection Hb as <-. reflexivity.
  - rewrite record_on_stored. eexists. split; [reflexivity|]. simpl.
    split; [intros Heq; apply app_eq_nil in Heq as [_ Heq]; discriminate|].
    destruct (last_item (blocks l)) as [p|] eqn:Hlast.
    + split.
      * eapply chain_invariant_snoc; eauto using appended_sealed.
        unfold appended. rewrite Hlast. reflexivity.
      * apply contiguous_snoc; [assumption|reflexivity].
    + exfalso. rewrite last_item_lookup in Hlast.
      destruct (blocks l) as [|x xs] eqn:E; [congruence|].
      simpl in Hlast. apply lookup_ge_None in Hlast. simpl in Hlast. lia.
Qed.

Lemma chain_from_cons p c rest :
  chain_from p (c :: rest)
  = String.eqb (previous_hash c) (block_hash p)
    && String.eqb (_calculate_block_hash (block_dict c)) (block_hash c)
    && chain_from c rest.
Proof.
  cbn [chain_from].
  destruct (String.eqb (previous_hash c) (block_hash p)); [|reflexivity].
  destruct (String.eqb (_calculate_block_hash (block_dict c)) (block_hash c)); reflexivity.
Qed.

Lemma chain_from_invariant p rest :
  chain_from p rest = true <-> chain_invariant (p :: rest).
Proof.
  revert p. induction rest as [|c rest IH]; intros p.
  - split; [|reflexivity]. intros _ i b q Hb _. destruct i; discriminate Hb.
  - rewrite chain_from_cons, !andb_true_iff, !String.eqb_eq, IH. split.
    + intros [[Hlink Hseal] Hrest] [|i] b q Hb Hq.
      * injection Hb as <-. injection Hq as <-. split; [assumption|].
        unfold sealed. congruence.
      * exact (Hrest i b q Hb Hq).
    + intros Hall. destruct (Hall 0%nat c p eq_refl eq_refl) as [Hl Hs].
      unfold sealed in Hs. split; [split; [assumption|congruence]|].
      intros i b q Hb Hq. exact (Hall (S i) b q Hb Hq).
Qed.

Lemma verify_chain_invariant l k :
  _verify_chain_integrity l k = true <-> chain_invariant (slice_to (blocks l) (k + 1)).
Proof.
  unfold _verify_chain_integrity.
  destruct (slice_to (blocks l) (k + 1)) as [|b0 rest].
  - split; [|reflexivity]. intros _ i b q Hb. destruct i; discriminate Hb.
  - apply chain_from_invariant.
Qed.

Lemma chain_invariant_take n bs :
  chain_invariant bs -> chain_invariant (firstn n bs).
Proof.
  intros Hinv i b q Hb Hq.
  apply lookup_take_Some in Hb as [Hb _]. apply lookup_take_Some in Hq as [Hq _].
  eauto.
Qed.

Lemma clamp_nonneg {A} (l : list A) (k : Z) :
  0 <= k -> clamp l k = Nat.min (Z.to_nat k) (length l).
Proof.
  intros Hk. unfold clamp. destruct (Z.ltb_spec k 0); lia.
Qed.




Lemma reachable_verifies self f l k :
  reachable self f -> f = Stored l -> _verify_chain_integrity l k = true.
Proof.
  intros Hr ->. apply reachable_invariant in Hr as (l' & [= <-] & _ & Hinv & _).
  apply verify_chain_invariant. apply chain_invariant_take. assumption.
Qed.


Lemma one_record_reachable : reachable Examples.service Examples.one_record.
Proof. unfold Examples.one_record. apply reach_append. apply reach_init. Qed.

Lemma two_records_reachable : reachable Examples.service Examples.two_records.
Proof. unfold Examples.two_records. apply reach_append. exact one_record_reachable. Qed.

Lemma two_records_stored :
  Examples.two_records = Stored (Examples.contents Examples.two_records).
Proof. vm_compute. reflexivity. Qed.




(** C2: an append to a ledger that satisfies the chain invariant adds one
    last block whose index is the previous length, whose [previous_hash] is
    the stored hash of the previous last block and whose [block_hash] is
    the SHA-256 digest of the key-sorted JSON of its fields other than
    [block_hash], and the invariant still holds; hence every ledger reached
    by initialisation and appends satisfies the invariant and numbers its
    blocks 0..n-1. *)
Theorem C2_append_extends_chain self now_txn now_block certificate_data wipe_report device_info :
  (forall (l : ledger) (p : block),
      last_item (blocks l) = Some p -> chain_invariant (blocks l) ->
      exists (nb : block),
        _record_local_erasure self now_txn now_block certificate_data wipe_report device_info
          (Stored l)
        = (Ok (LocalEntry (block_index nb) (block_hash nb)
                 (_generate_transaction_id now_txn device_info wipe_report)
                 (timestamp nb) (previous_hash nb)
                 (get certificate_data "certificate_hash" (JStr "N/A"))),
           Stored (with_blocks l (blocks l ++ [nb])))
        /\ block_index nb = Z.of_nat (length (blocks l))
        /\ previous_hash nb = block_hash p
        /\ block_hash nb
           = SHA256.hexdigest
               (encode (Json.dumps
                  (JDict (List.filter (fun kv => negb (String.eqb (fst kv) "block_hash"))
                            (block_dict nb)))))
        /\ chain_invariant (blocks l ++ [nb]))
  /\ (forall (f : file),
        reachable self f ->
        exists l, f = Stored l /\ chain_invariant (blocks l) /\ contiguous (blocks l)).
Proof.
  split.
  - intros l p Hlast Hinv.
    exists (appended now_txn now_block certificate_data wipe_report device_info (blocks l)).
    assert (previous_hash
              (appended now_txn now_block certificate_data wipe_report device_info (blocks l))
            = block_hash p) as Hprev.
    { unfold appended. rewrite Hlast. reflexivity. }
    split; [reflexivity|]. split; [reflexivity|]. split; [exact Hprev|]. split.
    + exact (appended_sealed now_txn now_block certificate_data wipe_report device_info
               (blocks l)).
    + eapply chain_invariant_snoc; eauto using appended_sealed.
  - intros f Hr. apply reachable_invariant in Hr as (l & -> & _ & Hinv & Hc). eauto.
Qed.

Lemma C2_append_extends_chain_witness :
  (exists nb : block,
      block_index nb = 2
      /\ previous_hash nb = block_hash (Examples.block_at Examples.one_record 1)
      /\ chain_invariant (blocks (Examples.contents Examples.one_record) ++ [nb]))
  /\ (exists l, Examples.two_records = Stored l
                /\ chain_invariant (blocks l) /\ contiguous (blocks l)).
Proof.
  destruct (C2_append_extends_chain Examples.service
              "2024-05-02T11:30:00.000500" "2024-05-02T11:30:00.000600"
              Examples.first_certificate Examples.sdb_report Examples.sdb)
    as [Happend Hreach].
  split.
  - destruct (Happend (Examples.contents Examples.one_record)
                (Examples.block_at Examples.one_record 1))
      as (nb & _ & Hidx & Hprev & _ & Hinv).
    + vm_compute; reflexivity.
    + destruct (Hreach Examples.one_record one_record_reachable) as (l & Hl & Hinv & _).
      rewrite Hl. exact Hinv.
    + exists nb. split; [|split; assumption].
      rewrite Hidx. vm_compute; reflexivity.
  - apply Hreach. exact two_records_reachable.
Defined.


(** ** Lookups *)

Lemma rules_out_agrees flt field : rules_out flt field = false <-> agrees flt field.
Proof.
  destruct flt as [s|]; simpl; [|tauto].
  unfold truthy. destruct (String.eqb_spec s "") as [->|Hs]; simpl.
  - split; auto.
  - destruct field; simpl; try (split; [discriminate | intros [?|?]; congruence]).
    rewrite negb_false_iff, String.eqb_eq. split.
    + intros ->. right. reflexivity.
    + intros [?|?]; congruence.
Qed.

Lemma selected_wanted cid sn ch b : selected cid sn ch b = true <-> wanted cid sn ch b.
Proof.
  unfold selected, wanted, is_certificate.
  destruct (data b) as [m | c h s md t wm ws w1 w2 sim] eqn:Hd.
  - split; [discriminate|]. intros (? & ? & ? & ? & ? & ? & ? & ? & ? & ? & [=] & _).
  -
    change (get (payload_dict (ErasureCertificate c h s md t wm ws w1 w2 sim))
              "type" JNull) with (JStr "erasure_certificate").
    change (get (payload_dict (ErasureCertificate c h s md t wm ws w1 w2 sim))
              "certificate_id" JNull) with c.
    change (get (payload_dict (ErasureCertificate c h s md t wm ws w1 w2 sim))
              "device_serial" JNull) with s.
    change (get (payload_dict (ErasureCertificate c h s md t wm ws w1 w2 sim))
              "certificate_hash" JNull) with h.
    cbn [eq_str negb]. change (String.eqb "erasure_certificate" "erasure_certificate") with true.
    cbn [negb].
    pose proof (rules_out_agrees cid c) as Hc.
    pose proof (rules_out_agrees sn s) as Hs.
    pose proof (rules_out_agrees ch h) as Hh.
    split.
    + intros Hsel. exists c, h, s, md, t, wm, ws, w1, w2, sim.
      split; [reflexivity|].
      destruct (rules_out cid c); [destruct (rules_out sn s), (rules_out ch h); discriminate|].
      destruct (rules_out sn s); [destruct (rules_out ch h); discriminate|].
      destruct (rules_out ch h); [discriminate|].
      repeat split; [apply Hc|apply Hs|apply Hh]; reflexivity.
    + intros (c' & h' & s' & ? & ? & ? & ? & ? & ? & ? & [= <- <- <- <- <- <- <- <- <- <-]
              & Ac & As & Ah).
      apply Hc in Ac. apply Hs in As. apply Hh in Ah. rewrite Ac, As, Ah. reflexivity.
Qed.

Lemma filter_snoc {A} (P : A -> bool) (l : list A) (x : A) :
  List.filter P (l ++ [x]) = List.filter P l ++ (if P x then [x] else []).
Proof. rewrite List.filter_app. reflexivity. Qed.

(** The last element that passes a filter is the one after which nothing
    passes. *)
Lemma last_item_filter {A} (P : A -> bool) (l : list A) (i : nat) (x : A) :
  l !! i = Some x -> P x = true ->
  (forall (j : nat) (y : A), (i < j)%nat -> l !! j = Some y -> P y = false) ->
  last_item (List.filter P l) = Some x.
Proof.
  revert i x. induction l as [|z l IH] using rev_ind; intros i x Hx HP Hlater.
  - discriminate Hx.
  - rewrite filter_snoc.
    destruct (decide (i < length l)%nat) as [Hlt|Hge].
    + rewrite (Hlater (length l) z Hlt).
      * rewrite app_nil_r. apply (IH i x).
        -- rewrite lookup_app_l in Hx by assumption. assumption.
        -- assumption.
        -- intros j y Hj Hy. apply (Hlater j y Hj).
           rewrite lookup_app_l; [assumption|]. eapply lookup_lt_Some. eassumption.
      * rewrite lookup_app_r by lia. rewrite Nat.sub_diag. reflexivity.
    + assert (i = length l) as ->.
      { apply lookup_lt_Some in Hx. rewrite length_app in Hx. simpl in Hx. lia. }
      rewrite lookup_app_r in Hx by lia. rewrite Nat.sub_diag in Hx. injection Hx as ->.
      rewrite HP. apply last_item_snoc.
Qed.

Lemma last_item_filter_none {A} (P : A -> bool) (l : list A) :
  (forall (j : nat) (y : A), l !! j = Some y -> P y = false) ->
  last_item (List.filter P l) = None.
Proof.
  intros Hnone. replace (List.filter P l) with (@nil A); [reflexivity|].
  symmetry. induction l as [|z l IH]; [reflexivity|]. simpl.
  rewrite (Hnone 0%nat z eq_refl). apply IH.
  intros j y Hy. exact (Hnone (S j) y Hy).
Qed.

Lemma serial_test b serial_number :
  is_certificate b
  && eq_str (get (payload_dict (data b)) "device_serial" JNull) serial_number
  = match data b with
    | ErasureCertificate _ _ (JStr serial) _ _ _ _ _ _ _ => String.eqb serial serial_number
    | _ => false
    end.
Proof.
  unfold is_certificate.
  destruct (data b) as [m | c h s md t wm ws w1 w2 sim]; [reflexivity|].
  destruct s; reflexivity.
Qed.

Lemma search_filter_records serial_number bs :
  map summarize
    (List.filter
       (fun b => is_certificate b
                 && eq_str (get (payload_dict (data b)) "device_serial" JNull) serial_number)
       bs)
  = records_for serial_number bs.
Proof.
  induction bs as [|b bs IH]; [reflexivity|].
  cbn [List.filter records_for]. rewrite serial_test.
  destruct (data b) as [m | c h s md t wm ws w1 w2 sim] eqn:Hd; [exact IH|].
  destruct s as [| | |s| |]; try exact IH.
  destruct (String.eqb s serial_number); [|exact IH].
  cbn [map]. rewrite IH. unfold summarize. rewrite Hd. reflexivity.
Qed.

Lemma verify_local_stored self cid sn ch l :
  _verify_local_certificate self cid sn ch (Stored l)
  = (match last_item (List.filter (selected cid sn ch) (blocks l)) with
     | Some b =>
         {| found := true;
            verification_status :=
              if String.eqb (block_hash b) (_calculate_block_hash (block_dict b))
                 && _verify_chain_integrity l (block_index b)
              then VALID else INVALID;
            report := Some {| integrity_valid :=
                                String.eqb (block_hash b) (_calculate_block_hash (block_dict b));
                              chain_valid := _verify_chain_integrity l (block_index b);
                              found_index := block_index b;
                              found_hash := block_hash b;
                              found_timestamp := timestamp b;
                              found_transaction :=
                                match transaction_id b with Some t => t | None => "N/A" end;
                              certificate_data := data b |};
            message := None |}
     | None =>
         {| found := false; verification_status := NOT_FOUND; report := None;
            message := Some "No matching certificate found in ledger" |}
     end, Stored l).
Proof.
  unfold _verify_local_certificate. cbn [json_load bind].
  destruct (last_item (List.filter (selected cid sn ch) (blocks l))); reflexivity.
Qed.

Lemma app_verify_stored here cid sn ch l :
  App.given cid || App.given sn || App.given ch = true ->
  App.verify_certificate here cid sn ch (Stored l)
  = (App.Success (Some (fst (_verify_local_certificate (App.ledger_service here)
                               cid sn ch (Stored l)))), Stored l).
Proof.
  intros Hgiven. unfold App.verify_certificate. rewrite Hgiven. cbn [negb].
  unfold verify_certificate.
  change (String.eqb (ledger_type (App.ledger_service here)) "local") with true.
  cbn iota. rewrite verify_local_stored. reflexivity.
Qed.

(** C4: with at least one filter given, verification answers from the
    erasure certificates that agree with every given filter: if there is
    none it reports NOT_FOUND with [found] false; otherwise it reports on
    the one after which no other agrees, and the status is VALID exactly
    when that block's recomputed hash equals its stored hash and the chain
    verifies up to its index, INVALID otherwise. With no filter given the
    request is refused with a 400. *)
Theorem C4_verify_reports_latest_match here certificate_id serial_number certificate_hash l :
  (App.given certificate_id || App.given serial_number || App.given certificate_hash = true ->
   exists v : verification,
     App.verify_certificate here certificate_id serial_number certificate_hash (Stored l)
     = (App.Success (Some v), Stored l)
     /\ ((forall (j : nat) (y : block),
            blocks l !! j = Some y ->
            ~ wanted certificate_id serial_number certificate_hash y) ->
         found v = false /\ verification_status v = NOT_FOUND)
     /\ (forall (i : nat) (b : block),
            blocks l !! i = Some b ->
            wanted certificate_id serial_number certificate_hash b ->
            (forall (j : nat) (y : block),
                (i < j)%nat -> blocks l !! j = Some y ->
                ~ wanted certificate_id serial_number certificate_hash y) ->
            found v = true
            /\ (exists r : match_report,
                   report v = Some r
                   /\ found_index r = block_index b /\ found_hash r = block_hash b
                   /\ found_timestamp r = timestamp b /\ certificate_data r = data b)
            /\ (verification_status v = VALID
                <-> _calculate_block_hash (block_dict b) = block_hash b
                    /\ _verify_chain_integrity l (block_index b) = true)
            /\ (verification_status v = VALID \/ verification_status v = INVALID)))
  /\ (App.given certificate_id || App.given serial_number || App.given certificate_hash = false ->
      exists msg : string,
        App.verify_certificate here certificate_id serial_number certificate_hash (Stored l)
        = (App.Failure 400 msg, Stored l)).
Proof.
  split.
  - intros Hgiven. eexists. split; [apply app_verify_stored; assumption|].
    rewrite verify_local_stored. cbn [fst]. split.
    + intros Hnone. rewrite last_item_filter_none; [split; reflexivity|].
      intros j y Hy. apply not_true_is_false. rewrite selected_wanted. eauto.
    + intros i b Hb Hwanted Hlater.
      rewrite (last_item_filter _ _ i b Hb).
      * cbn [found report verification_status]. split; [reflexivity|]. split.
        { eexists. split; [reflexivity|]. repeat split. }
        destruct (String.eqb_spec (block_hash b) (_calculate_block_hash (block_dict b)))
          as [Heq|Hne]; cbn [andb].
        -- destruct (_verify_chain_integrity l (block_index b)).
           ++ split; [|left; reflexivity]. split; [auto|reflexivity].
           ++ split; [|right; reflexivity]. split; [discriminate|]. intros [_ [=]].
        -- split; [|right; reflexivity]. split; [discriminate|]. intros [Heq _]. congruence.
      * apply selected_wanted. assumption.
      * intros j y Hj Hy. apply not_true_is_false. rewrite selected_wanted. eauto.
  - intros Hnone. eexists. unfold App.verify_certificate. rewrite Hnone. reflexivity.
Qed.

Lemma two_records_blocks :
  blocks (Examples.contents Examples.two_records)
  = [Examples.block_at Examples.two_records 0; Examples.block_at Examples.two_records 1;
     Examples.block_at Examples.two_records 2].
Proof. vm_compute. reflexivity. Qed.

Lemma beyond_two_records (j : nat) (y : block) :
  (2 < j)%nat -> blocks (Examples.contents Examples.two_records) !! j = Some y -> False.
Proof.
  intros Hj Hy. apply lookup_lt_Some in Hy. rewrite two_records_blocks in Hy.
  cbn [length] in Hy. lia.
Qed.

Lemma within_list3 {A} (a b c y : A) (j : nat) :
  [a; b; c] !! j = Some y -> y = a \/ y = b \/ y = c.
Proof.
  destruct j as [|[|[|j]]]; intros Hy; [| | |discriminate Hy]; injection Hy as <-; auto.
Qed.

Lemma within_two_records (j : nat) (y : block) :
  blocks (Examples.contents Examples.two_records) !! j = Some y ->
  y = Examples.block_at Examples.two_records 0
  \/ y = Examples.block_at Examples.two_records 1
  \/ y = Examples.block_at Examples.two_records 2.
Proof. rewrite two_records_blocks. apply within_list3. Qed.

Lemma C4_verify_reports_latest_match_witness :
  (exists v : verification,
      App.verify_certificate "/opt/erash/backend" (Some "3F2A9C0B7D1E4A55") None None
        (Stored (Examples.contents Examples.two_records))
      = (App.Success (Some v), Stored (Examples.contents Examples.two_records))
      /\ found v = true /\ verification_status v = VALID
      /\ option_map found_index (report v) = Some 2)
  /\ (exists v : verification,
        App.verify_certificate "/opt/erash/backend" None None (Some "0f0f")
          (Stored (Examples.contents Examples.two_records))
        = (App.Success (Some v), Stored (Examples.contents Examples.two_records))
        /\ found v = false /\ verification_status v = NOT_FOUND)
  /\ (exists msg : string,
        App.verify_certificate "/opt/erash/backend" None (Some "") None
          (Stored (Examples.contents Examples.two_records))
        = (App.Failure 400 msg, Stored (Examples.contents Examples.two_records))).
Proof.
  split; [|split].
  - destruct (C4_verify_reports_latest_match "/opt/erash/backend"
                (Some "3F2A9C0B7D1E4A55") None None (Examples.contents Examples.two_records))
      as [Hgiven _].
    destruct (Hgiven eq_refl) as (v & Hrun & _ & Hlatest).
    destruct (Hlatest 2%nat (Examples.block_at Examples.two_records 2))
      as (Hfound & (r & Hr & Hidx & _) & Hvalid & _).
    + vm_compute; reflexivity.
    + do 10 eexists. split; [vm_compute; reflexivity|].
      split; [right; reflexivity|]. split; exact I.
    + intros j y Hj Hy _. exact (beyond_two_records j y Hj Hy).
    + exists v. split; [exact Hrun|]. split; [exact Hfound|]. split.
      * apply Hvalid. split; vm_compute; reflexivity.
      * rewrite Hr. cbn [option_map]. rewrite Hidx. vm_compute; reflexivity.
  - destruct (C4_verify_reports_latest_match "/opt/erash/backend"
                None None (Some "0f0f") (Examples.contents Examples.two_records))
      as [Hgiven _].
    destruct (Hgiven eq_refl) as (v & Hrun & Hnone & _).
    exists v. split; [exact Hrun|]. apply Hnone.
    intros j y Hy (cid & chash & ? & ? & ? & ? & ? & ? & ? & ? & Hd & _ & _ & Hagree).
    destruct Hagree as [Hempty|Hsame]; [discriminate Hempty|].
    assert (Examples.recorded_hash y = JStr "0f0f") as Hrec.
    { unfold Examples.recorded_hash. rewrite Hd. exact Hsame. }
    assert (Examples.recorded_hash (Examples.block_at Examples.two_records 0) = JNull)
      as H0 by (vm_compute; reflexivity).
    assert (Examples.recorded_hash (Examples.block_at Examples.two_records 1)
            = get Examples.first_certificate "certificate_hash" JNull)
      as H1 by (vm_compute; reflexivity).
    assert (Examples.recorded_hash (Examples.block_at Examples.two_records 2)
            = get Examples.first_certificate "certificate_hash" JNull)
      as H2 by (vm_compute; reflexivity).
    destruct (within_two_records j y Hy) as [-> | [-> | ->]].
    + rewrite H0 in Hrec. discriminate Hrec.
    + rewrite H1 in Hrec. discriminate Hrec.
    + rewrite H2 in Hrec. discriminate Hrec.
  - destruct (C4_verify_reports_latest_match "/opt/erash/backend"
                None (Some "") None (Examples.contents Examples.two_records))
      as [_ Hrefused].
    exact (Hrefused eq_refl).
Defined.

(** C10: search-by-serial always returns a list and leaves the ledger file
    as it was; the list is empty when the ledger cannot be read, and on a
    readable local ledger it holds, in block order, one summary for each
    erasure certificate whose device serial is the one asked for. *)
Theorem C10_search_by_serial_total self serial_number f :
  exists records : list summary,
    search_by_serial self serial_number f = (Ok records, f)
    /\ (forall e : exn, json_load self f = Raise e -> records = [])
    /\ (forall l : ledger,
          ledger_type self = "local" -> f = Stored l ->
          records = records_for serial_number (blocks l)).
Proof.
  unfold search_by_serial.
  destruct (String.eqb_spec (ledger_type self) "local") as [Hlocal|Hother]; cbn [negb].
  - eexists. split; [reflexivity|]. split.
    + intros e He. rewrite He. reflexivity.
    + intros l _ ->. cbn [json_load bind try_except]. apply search_filter_records.
  - exists []. split; [reflexivity|]. split; [reflexivity|]. intros l Hl. contradiction.
Qed.

Lemma C10_search_by_serial_total_witness :
  (exists records : list summary,
      search_by_serial Examples.service "WD-WCC123456789" Examples.two_records
      = (Ok records, Examples.two_records)
      /\ map s_block_index records = [1; 2])
  /\ (exists records : list summary,
        search_by_serial Examples.service "WD-WCC123456789" Absent = (Ok records, Absent)
        /\ records = []).
Proof.
  split.
  - destruct (C10_search_by_serial_total Examples.service "WD-WCC123456789"
                Examples.two_records) as (records & Hrun & _ & Hstored).
    exists records. split; [exact Hrun|].
    rewrite (Hstored (Examples.contents Examples.two_records) eq_refl two_records_stored).
    vm_compute; reflexivity.
  - destruct (C10_search_by_serial_total Examples.service "WD-WCC123456789" Absent)
      as (records & Hrun & Hfail & _).
    exists records. split; [exact Hrun|]. eapply Hfail. reflexivity.
Defined.

End LedgerProps.

(** ** The registry, the workers and the pollers *)

Module WipeProps.
Import Py WipeService WipeSpec.

Lemma perform_present now id c (reg : registry) w :
  reg !! id = Some w ->
  perform now id c reg
  = <[id := updated now (c_status c) (c_progress c) (c_log c) (c_error c) w]> reg.
Proof. intros H. unfold perform, _update_wipe_status. rewrite H. reflexivity. Qed.

Lemma perform_lookup now id c (reg : registry) w :
  reg !! id = Some w ->
  perform now id c reg !! id
  = Some (updated now (c_status c) (c_progress c) (c_log c) (c_error c) w).
Proof. intros H. rewrite (perform_present _ _ _ _ _ H). apply lookup_insert_eq. Qed.

Lemma perform_absent now id c (reg : registry) :
  reg !! id = None -> perform now id c reg = reg.
Proof. intros H. unfold perform, _update_wipe_status. rewrite H. reflexivity. Qed.

Lemma perform_other now id id' c (reg : registry) :
  id <> id' -> perform now id c reg !! id' = reg !! id'.
Proof.
  intros Hne. unfold perform, _update_wipe_status.
  destruct (reg !! id); [|reflexivity]. apply lookup_insert_ne. assumption.
Qed.

(** An update never removes or rewrites a log line. *)
Lemma updated_logs now st pr log err w :
  exists extra, logs (updated now st pr log err w) = logs w ++ extra.
Proof.
  unfold updated. cbn [logs].
  destruct log as [m|]; [destruct (truthy m)|]; eauto using app_nil_r.
  all: exists []; symmetry; apply app_nil_r.
Qed.

(** Only the completed transition writes [end_time]. *)
Lemma updated_end_time now st pr log err w :
  end_time (updated now st pr log err w)
  = match st with completed => Some now | _ => end_time w end.
Proof. reflexivity. Qed.

Lemma last_any_default {A} (x : A) (l : list A) (d d' : A) :
  List.last (x :: l) d = List.last (x :: l) d'.
Proof.
  revert x. induction l as [|y l IH]; intros x; [reflexivity|].
  change (List.last (y :: l) d = List.last (y :: l) d'). apply IH.
Qed.

Lemma outcome_replay clock tick id calls (reg : registry) w :
  reg !! id = Some w ->
  outcome clock tick id calls reg !! id = Some (replay clock tick calls w).
Proof.
  unfold outcome. revert tick reg w.
  induction calls as [|c rest IH]; intros tick reg w Hw; [exact Hw|].
  cbn [history replay].
  pose proof (perform_lookup (clock tick) id c reg w Hw) as Hnext.
  specialize (IH (S tick) _ _ Hnext).
  destruct (history clock (S tick) id rest (perform (clock tick) id c reg)) as [|r rs] eqn:Hh.
  - destruct rest; [|discriminate Hh]. exact Hnext.
  - change (List.last (perform (clock tick) id c reg :: r :: rs) reg)
      with (List.last (r :: rs) reg).
    rewrite (last_any_default r rs reg (perform (clock tick) id c reg)). exact IH.
Qed.

Lemma history_growing clock tick id calls (reg : registry) w :
  reg !! id = Some w -> growing id (logs w) (history clock tick id calls reg).
Proof.
  revert tick reg w. induction calls as [|c rest IH]; intros tick reg w Hw.
  - constructor.
  - cbn [history].
    pose proof (perform_lookup (clock tick) id c reg w Hw) as Hnext.
    destruct (updated_logs (clock tick) (c_status c) (c_progress c) (c_log c) (c_error c) w)
      as [extra Hextra].
    eapply growing_cons; [exact Hnext|exact Hextra|]. apply IH. exact Hnext.
Qed.

Lemma growing_rebase id base extra snaps :
  growing id (base ++ extra) snaps -> growing id base snaps.
Proof.
  inversion 1 as [|? r rest w extra' Hr Hlogs Hrest]; subst.
  - constructor.
  - eapply growing_cons; [exact Hr| |exact Hrest].
    rewrite Hlogs, <- app_assoc. reflexivity.
Qed.

Lemma growing_sublist id base snaps polled :
  growing id base snaps -> sublist polled snaps -> growing id base polled.
Proof.
  intros Hg. revert polled. induction Hg as [|base r rest w extra Hr Hlogs Hrest IH];
    intros polled Hsub.
  - apply sublist_nil_r in Hsub as ->. constructor.
  - inversion Hsub as [| x l1 l2 Hsub' | x l1 l2 Hsub']; subst.
    + eapply growing_cons; eauto.
    + apply (growing_rebase id base extra). rewrite <- Hlogs. apply IH. assumption.
Qed.

Lemma slice_from_skipn {A} (l : list A) (k : nat) :
  slice_from l (Z.of_nat k) = skipn k l.
Proof.
  unfold slice_from, clamp.
  destruct (Z.ltb_spec (Z.of_nat k) 0) as [Hneg|_]; [lia|].
  destruct (decide (k <= length l)%nat) as [Hle|Hgt].
  - f_equal. lia.
  - rewrite !skipn_all2 by lia. reflexivity.
Qed.

(** [logs(id, K)]: the entries from position [K] on, and the total. *)
Lemma get_wipe_logs_from id (k : nat) (reg : registry) w :
  reg !! id = Some w ->
  get_wipe_logs id (Z.of_nat k) reg
  = Some {| page_logs := skipn k (logs w); total_count := length (logs w);
            page_status := status w; page_progress := progress w |}.
Proof.
  intros Hw. unfold get_wipe_logs. rewrite Hw, slice_from_skipn. reflexivity.
Qed.

Lemma poll_growing id base extra (r : registry) w :
  r !! id = Some w -> logs w = base ++ extra ->
  poll id r {| seen := length base; collected := base |}
  = {| seen := length (logs w); collected := logs w |}.
Proof.
  intros Hw Hlogs. unfold poll. cbn [seen collected].
  rewrite (get_wipe_logs_from id (length base) r w Hw). cbn [total_count page_logs].
  f_equal. rewrite Hlogs, skipn_app, skipn_all, Nat.sub_diag. reflexivity.
Qed.

(** A poller that follows a growing log holds, after every poll, exactly
    the log of the snapshot it polled last. *)
Lemma poll_all_growing id base snaps :
  growing id base snaps ->
  poll_all id snaps {| seen := length base; collected := base |}
  = match last snaps with
    | Some r => {| seen := length (logs_of id r); collected := logs_of id r |}
    | None => {| seen := length base; collected := base |}
    end.
Proof.
  induction 1 as [|base r rest w extra Hr Hlogs Hrest IH]; [reflexivity|].
  unfold poll_all in *. cbn [fold_left].
  rewrite (poll_growing id base extra r w Hr Hlogs), IH.
  destruct rest as [|r' rest'].
  - cbn [last]. unfold logs_of. rewrite Hr. reflexivity.
  - change (last (r :: r' :: rest')) with (last (r' :: rest')).
    destruct (last (r' :: rest')) eqn:Hlast; [reflexivity|].
    apply last_None in Hlast. discriminate Hlast.
Qed.

(** Polling is gap-free: whatever the worker does and whenever the client
    polls, the lines it has collected are the log as of its last poll,
    each line once and in order. *)
Lemma polling_is_gap_free clock tick id calls (reg : registry) w polled :
  reg !! id = Some w -> logs w = [] ->
  sublist polled (history clock tick id calls reg) ->
  collected (poll_all id polled {| seen := 0; collected := [] |})
  = match last polled with
    | Some r => logs_of id r
    | None => []
    end.
Proof.
  intros Hw Hempty Hsub.
  pose proof (history_growing clock tick id calls reg w Hw) as Hg.
  rewrite Hempty in Hg.
  change {| seen := 0; collected := [] |}
    with {| seen := length (@nil log_entry); collected := [] |}.
  rewrite (poll_all_growing id [] polled (growing_sublist _ _ _ _ Hg Hsub)).
  destruct (last polled); reflexivity.
Qed.

(** ** Starting a job *)

Lemma device_listed dp (reg : registry) :
  dp ∈ map device (map snd (map_to_list reg))
  <-> exists id w, reg !! id = Some w /\ device w = dp.
Proof.
  rewrite list_elem_of_In, in_map_iff. split.
  - intros (w & Hdev & Hin). apply in_map_iff in Hin as ([id w'] & Hsnd & Hin).
    simpl in Hsnd. subst w'. exists id, w. split; [|assumption].
    apply elem_of_map_to_list. apply list_elem_of_In. assumption.
  - intros (id & w & Hw & Hdev). exists w. split; [assumption|].
    apply in_map_iff. exists (id, w). split; [reflexivity|].
    apply list_elem_of_In. apply elem_of_map_to_list. assumption.
Qed.

(** [start_wipe] refuses a device as soon as the registry holds any job
    for it, whatever the status of that job. *)
Lemma start_wipe_refuses epoch now dp m v sim (reg : registry) :
  (exists id w, reg !! id = Some w /\ device w = dp) ->
  start_wipe epoch now dp m v sim reg = (Rejected "Device is already being wiped", reg).
Proof.
  intros H. unfold start_wipe. rewrite bool_decide_eq_true_2; [reflexivity|].
  apply device_listed. assumption.
Qed.

Lemma start_wipe_accepts epoch now dp m v sim (reg : registry) :
  (forall id w, reg !! id = Some w -> device w <> dp) ->
  start_wipe epoch now dp m v sim reg
  = (Started ("wipe_" +:+ str_of_int epoch +:+ "_" +:+ replace "/" "_" dp),
     <["wipe_" +:+ str_of_int epoch +:+ "_" +:+ replace "/" "_" dp
       := fresh_job now dp m sim]> reg).
Proof.
  intros H. unfold start_wipe. rewrite bool_decide_eq_false_2; [reflexivity|].
  rewrite device_listed. intros (id & w & Hw & Hdev). exact (H id w Hw Hdev).
Qed.

(** ** The simulated script *)

Lemma prefix_before (p suf : string) (c : ascii) :
  ~ In c (chars p) ->
  forall t, String.prefix p (t +:+ String c suf) = String.prefix p t.
Proof.
  induction p as [|a p IH]; intros Hc t; [destruct t; reflexivity|].
  destruct t as [|b t].
  - change ("" +:+ String c suf) with (String c suf). cbn [String.prefix].
    destruct (ascii_dec a c) as [->|_]; [|reflexivity].
    exfalso. apply Hc. left. reflexivity.
  - change (String b t +:+ String c suf) with (String b (t +:+ String c suf)).
    cbn [String.prefix]. destruct (ascii_dec a b); [|reflexivity].
    apply IH. intros Hin. apply Hc. right. exact Hin.
Qed.

Lemma contains_before (p suf : string) (c : ascii) :
  p <> "" -> ~ In c (chars p) -> contains p (String c suf) = false ->
  forall t, contains p (t +:+ String c suf) = contains p t.
Proof.
  intros Hp Hc Hsuf t. induction t as [|b t IH].
  - change ("" +:+ String c suf) with (String c suf). rewrite Hsuf.
    destruct p; [contradiction|reflexivity].
  - change (String b t +:+ String c suf) with (String b (t +:+ String c suf)).
    cbn [contains]. rewrite IH.
    change (String b (t +:+ String c suf)) with (String b t +:+ String c suf).
    rewrite prefix_before by assumption. reflexivity.
Qed.

Lemma marker_in_target dp :
  contains "Progress:" ("Target device: " +:+ dp) = contains "Progress:" dp.
Proof. reflexivity. Qed.

Lemma marker_in_method m :
  contains "Progress:" ("Method: " +:+ m) = contains "Progress:" m.
Proof. reflexivity. Qed.

Lemma marker_in_closing dp :
  contains "Progress:" ("Device " +:+ dp +:+ " has been securely erased.")
  = contains "Progress:" dp.
Proof.
  change (contains "Progress:" ("Device " +:+ dp +:+ " has been securely erased."))
    with (contains "Progress:" (dp +:+ String " " "has been securely erased.")).
  apply contains_before.
  - discriminate.
  - vm_compute. intuition discriminate.
  - reflexivity.
Qed.

(** With no marker in the device path nor in the method, the simulated
    worker makes exactly the scripted calls. *)
Lemma simulated_script dp m :
  contains "Progress:" dp = false -> contains "Progress:" m = false ->
  _run_simulated_wipe dp m = (script dp m, None).
Proof.
  intros Hdp Hm.
  assert (stage_progress 18 1 ("Target device: " +:+ dp) = Ok 5) as H1.
  { unfold stage_progress. rewrite marker_in_target, Hdp. reflexivity. }
  assert (stage_progress 18 2 ("Method: " +:+ m) = Ok 11) as H2.
  { unfold stage_progress. rewrite marker_in_method, Hm. reflexivity. }
  assert (stage_progress 18 17 ("Device " +:+ dp +:+ " has been securely erased.") = Ok 100)
    as H17.
  { unfold stage_progress. rewrite marker_in_closing, Hdp. reflexivity. }
  unfold _run_simulated_wipe, stages. cbn [length simulate].
  rewrite H1, H2, H17. vm_compute. reflexivity.
Qed.

Lemma simulated_run dp m v proc :
  contains "Progress:" dp = false -> contains "Progress:" m = false ->
  _run_wipe dp m v true proc = script dp m.
Proof.
  intros Hdp Hm. unfold _run_wipe. rewrite (simulated_script dp m Hdp Hm). reflexivity.
Qed.

(** Such a job ends completed at 100 with the eighteen scripted lines as
    its log. *)
Lemma simulated_outcome clock tick id now dp m v proc (reg : registry) :
  contains "Progress:" dp = false -> contains "Progress:" m = false ->
  reg !! id = Some (fresh_job now dp m true) ->
  exists w, outcome clock tick id (_run_wipe dp m v true proc) reg !! id = Some w
            /\ map log_message (logs w) = stages dp m
            /\ status w = completed /\ progress w = 100
            /\ end_time w = Some (clock (tick + 18)%nat).
Proof.
  intros Hdp Hm Hreg. rewrite (simulated_run dp m v proc Hdp Hm).
  eexists. split; [apply outcome_replay; exact Hreg|].
  split; [vm_compute; reflexivity|]. split; [reflexivity|]. split; [reflexivity|].
  cbn [script stages scripted_progress combine map app replay updated end_time c_status].
  do 18 f_equal. lia.
Qed.

(** ** The claims on jobs *)

(** C5 (the code departs from it): once the only job of [/dev/sdb] has
    completed, or failed, a new start for [/dev/sdb] is still refused with
    "Device is already being wiped" and the registry is left as it was. *)
Theorem C5_restart_refused_after_terminal_status :
  fst WipeExamples.sdb_started = Started WipeExamples.sdb_id
  /\ size WipeExamples.sdb_done = 1%nat
  /\ status <$> (WipeExamples.sdb_done !! WipeExamples.sdb_id) = Some completed
  /\ WipeExamples.sdb_again
     = (Rejected "Device is already being wiped", WipeExamples.sdb_done)
  /\ size WipeExamples.real_failed = 1%nat
  /\ status <$> (WipeExamples.real_failed !! WipeExamples.sdb_id) = Some failed
  /\ start_wipe 1714554060 (WipeExamples.clock 120) "/dev/sdb" "dodshort" false true
       WipeExamples.real_failed
     = (Rejected "Device is already being wiped", WipeExamples.real_failed).
Proof.
  split; [vm_compute; reflexivity|].
  split; [vm_compute; reflexivity|].
  split; [vm_compute; reflexivity|].
  split.
  { apply start_wipe_refuses. exists WipeExamples.sdb_id. eexists.
    split; vm_compute; reflexivity. }
  split; [vm_compute; reflexivity|].
  split; [vm_compute; reflexivity|].
  apply start_wipe_refuses. exists WipeExamples.sdb_id. eexists.
  split; vm_compute; reflexivity.
Qed.

(** C7 (the code departs from it): the progress of the simulated job of
    [/dev/sdb] after each of the worker's nineteen updates falls three
    times, from 22 to 10, from 75 to 66 and from 100 to 88. *)
Theorem C7_simulated_progress_falls :
  map (progress_of WipeExamples.sdb_id) WipeExamples.sdb_history
  = map Some [0; 5; 11; 16; 22; 10; 25; 40; 44; 50; 65; 75; 66; 85; 95; 100; 88; 100; 100]
  /\ rising [0; 5; 11; 16; 22; 10; 25; 40; 44; 50; 65; 75; 66; 85; 95; 100; 88; 100; 100]
     = false.
Proof. split; vm_compute; reflexivity. Qed.

(** C8 (the code departs from it): a job whose tool exits with code 1, and
    a job whose worker raises, end with status failed and the error
    recorded but with no [end_time]; the completed job has one. *)
Theorem C8_failed_job_has_no_end_time :
  status <$> (WipeExamples.real_failed !! WipeExamples.sdb_id) = Some failed
  /\ error <$> (WipeExamples.real_failed !! WipeExamples.sdb_id)
     = Some (Some "nwipe exited with error")
  /\ end_time <$> (WipeExamples.real_failed !! WipeExamples.sdb_id) = Some None
  /\ status <$> (WipeExamples.labelled_done !! WipeExamples.labelled_id) = Some failed
  /\ error <$> (WipeExamples.labelled_done !! WipeExamples.labelled_id)
     = Some (Some "invalid literal for int() with base 10: '2024 has been securely erased.'")
  /\ end_time <$> (WipeExamples.labelled_done !! WipeExamples.labelled_id) = Some None
  /\ end_time <$> (WipeExamples.sdb_done !! WipeExamples.sdb_id)
     = Some (Some (WipeExamples.clock 19)).
Proof. repeat split; vm_compute; reflexivity. Qed.

(** C9 (the code departs from it): the simulated job of a disk addressed
    as [/dev/disk/by-label/Progress:2024] reads a progress marker in its
    own last line, fails on it, and leaves seventeen of the eighteen
    scripted lines in its log. *)
Theorem C9_marker_in_device_path_cuts_script :
  fst WipeExamples.labelled_started = Started WipeExamples.labelled_id
  /\ length (stages WipeExamples.labelled "dodshort") = 18%nat
  /\ map log_message (logs_of WipeExamples.labelled_id WipeExamples.labelled_done)
     = firstn 17 (stages WipeExamples.labelled "dodshort")
  /\ status <$> (WipeExamples.labelled_done !! WipeExamples.labelled_id) = Some failed
  /\ progress <$> (WipeExamples.labelled_done !! WipeExamples.labelled_id) = Some 88
  /\ get_wipe_logs WipeExamples.labelled_id 0 WipeExamples.labelled_done
     = Some {| page_logs := logs_of WipeExamples.labelled_id WipeExamples.labelled_done;
               total_count := 17; page_status := failed; page_progress := 88 |}.
Proof. repeat split; vm_compute; reflexivity. Qed.

End WipeProps.

(** ** Certification *)

Module CertificateProps.
Import Py.

(** The identity of a certificate is fixed by the report, the device and
    the clock reading; the ledger entry passed in plays no part. *)
Lemma certificate_identity stamp now wipe_report device_info e1 e2 :
  Certificate.generate_certificate stamp now wipe_report device_info e1
  = Certificate.generate_certificate stamp now wipe_report device_info e2.
Proof. reflexivity. Qed.

(** Recording appends exactly one block, whatever the readings. *)
Lemma recording_appends_one here t wipe_report device_info l c f' :
  App.generate_certificate here t wipe_report device_info true (Ledger.Stored l)
  = (Ok c, f') ->
  exists nb, f' = Ledger.Stored (Ledger.with_blocks l (Ledger.blocks l ++ [nb])).
Proof.
  unfold App.generate_certificate.
  destruct (Certificate.generate_certificate (App.draft_stamp t) (App.draft_now t)
              wipe_report device_info None) as [temp|e]; [|discriminate].
  unfold Ledger.record_erasure.
  change (String.eqb (Ledger.ledger_type (App.ledger_service here)) "local") with true.
  cbn iota. unfold Ledger._record_local_erasure. cbn [Ledger.json_load].
  destruct (Certificate.generate_certificate (App.final_stamp t) (App.final_now t)
              wipe_report device_info _) as [final|e]; [|discriminate].
  intros [= _ <-]. eexists. reflexivity.
Qed.

(** C6 (the code departs from it): the request appends one block, and the
    certificate it returns carries neither the [certificate_id] nor the
    [certificate_hash] that block records: the block holds those of the
    draft, the caller gets those of the regenerated certificate. *)
Theorem C6_returned_certificate_is_not_the_recorded_one :
  length (Ledger.blocks (Examples.contents (snd Examples.issued)))
  = S (length (Ledger.blocks (Examples.contents Examples.fresh)))
  /\ exists c : App.issued,
       fst Examples.issued = Ok c
       /\ Examples.recorded_id (Examples.block_at (snd Examples.issued) 1)
          = JStr "F125E015F4293ACE"
       /\ App.id c = "1171E428425AFF82"
       /\ Examples.recorded_hash (Examples.block_at (snd Examples.issued) 1)
          = JStr "4c0af5278cf411de461b9a2ad33e3c4bf7046b34e37f52bf16f2de703ebd79b4"
       /\ App.hash c = "cfb10888f8c7f5d5a37db51d3beec66686c2195231e3758ebb74e850e7e476ab".
Proof.
  split; [vm_compute; reflexivity|].
  eexists. split; [vm_compute; reflexivity|].
  repeat split; vm_compute; reflexivity.
Qed.

End CertificateProps.

(** * Further properties of the ledger *)

Module LedgerMore.
Import Py Ledger LedgerSpec LedgerProps.

(** ** What the chain check lets through *)

(** X1: a ledger cut back to any of its prefixes still passes the chain
    check at every index: dropping the latest records is not noticed. *)
Theorem truncation_passes_chain_check self f l (n : nat) (k : Z) :
  reachable self f -> f = Stored l ->
  _verify_chain_integrity (with_blocks l (firstn n (blocks l))) k = true.
Proof.
  intros Hr ->. apply reachable_invariant in Hr as (l' & [= <-] & _ & Hinv & _).
  apply verify_chain_invariant. cbn [blocks with_blocks].
  apply chain_invariant_take. apply chain_invariant_take. assumption.
Qed.

Lemma truncation_passes_chain_check_witness :
  _verify_chain_integrity
    (with_blocks (Examples.contents Examples.two_records)
       (firstn 2 (blocks (Examples.contents Examples.two_records)))) 2 = true.
Proof.
  exact (truncation_passes_chain_check Examples.service Examples.two_records
           (Examples.contents Examples.two_records) 2 2
           two_records_reachable two_records_stored).
Defined.

Lemma with_hash_content b h :
  _calculate_block_hash (block_dict (with_hash b h)) = _calculate_block_hash (block_dict b).
Proof. rewrite !stored_hash_ignored. reflexivity. Qed.

(** X2: a change of a stored [block_hash] alone is always noticed from the
    block on when the block is not the first, and from index 1 on when it
    is the first and a second block exists; no property of the hash
    function is needed. *)
Theorem stored_hash_change_detected self f l (i : nat) (b : block) (h : string) (k : Z) :
  reachable self f -> f = Stored l ->
  blocks l !! i = Some b -> h <> block_hash b ->
  Z.of_nat i <= k -> 1 <= k -> (1 < length (blocks l))%nat ->
  _verify_chain_integrity (with_blocks l (<[i := with_hash b h]> (blocks l))) k = false.
Proof.
  intros Hr -> Hb Hh Hik Hk Hlen.
  apply reachable_invariant in Hr as (l' & [= <-] & _ & Hinv & _).
  apply not_true_is_false. intros Hv. apply verify_chain_invariant in Hv.
  cbn [blocks with_blocks] in Hv. unfold slice_to in Hv.
  assert (i < length (blocks l))%nat as Hi by (eapply lookup_lt_Some; eassumption).
  destruct i as [|i].
  - destruct (blocks l !! 1%nat) as [b1|] eqn:Hb1; [|apply lookup_ge_None in Hb1; lia].
    destruct (Hinv 0%nat b1 b Hb1 Hb) as [Hlink _].
    destruct (Hv 0%nat b1 (with_hash b h)) as [Hlink' _].
    + apply lookup_take_Some. split.
      * rewrite list_lookup_insert_ne by lia. assumption.
      * rewrite clamp_nonneg by lia. rewrite length_insert. lia.
    + apply lookup_take_Some. split.
      * apply list_lookup_insert_eq. assumption.
      * rewrite clamp_nonneg by lia. rewrite length_insert. lia.
    + apply Hh. cbn [block_hash with_hash] in Hlink'. congruence.
  - destruct (blocks l !! i) as [q|] eqn:Hq; [|apply lookup_ge_None in Hq; lia].
    destruct (Hinv i b q Hb Hq) as [_ Hseal].
    destruct (Hv i (with_hash b h) q) as [_ Hseal'].
    + apply lookup_take_Some. split.
      * apply list_lookup_insert_eq. assumption.
      * rewrite clamp_nonneg by lia. rewrite length_insert. lia.
    + apply lookup_take_Some. split.
      * rewrite list_lookup_insert_ne by lia. assumption.
      * rewrite clamp_nonneg by lia. rewrite length_insert. lia.
    + apply Hh. unfold sealed in Hseal, Hseal'. rewrite with_hash_content in Hseal'.
      cbn [block_hash with_hash] in Hseal'. congruence.
Qed.

Lemma stored_hash_change_detected_witness :
  _verify_chain_integrity
    (with_blocks (Examples.contents Examples.two_records)
       (<[0%nat := with_hash (Examples.block_at Examples.two_records 0) "f00d"]>
          (blocks (Examples.contents Examples.two_records)))) 1 = false.
Proof.
  apply (stored_hash_change_detected Examples.service Examples.two_records
           (Examples.contents Examples.two_records) 0
           (Examples.block_at Examples.two_records 0) "f00d" 1
           two_records_reachable two_records_stored).
  - rewrite two_records_blocks. reflexivity.
  - vm_compute. discriminate.
  - lia.
  - lia.
  - rewrite two_records_blocks. cbn [length]. lia.
Defined.

(** ** Recording, then asking *)

Lemma record_local_stored self now_txn now_block cd wr di l :
  _record_local_erasure self now_txn now_block cd wr di (Stored l)
  = (Ok (LocalEntry (block_index (appended now_txn now_block cd wr di (blocks l)))
           (block_hash (appended now_txn now_block cd wr di (blocks l)))
           (_generate_transaction_id now_txn di wr)
           now_block
           (previous_hash (appended now_txn now_block cd wr di (blocks l)))
           (get cd "certificate_hash" (JStr "N/A"))),
     Stored (with_blocks l (blocks l ++ [appended now_txn now_block cd wr di (blocks l)]))).
Proof. reflexivity. Qed.

Lemma appended_selected now_txn now_block cd wr di bs cid :
  Py.lookup "certificate_id" cd = Some (JStr cid) -> cid <> "" ->
  selected (Some cid) None None (appended now_txn now_block cd wr di bs) = true.
Proof.
  intros Hcid Hne. apply selected_wanted. unfold wanted. do 10 eexists.
  split; [reflexivity|]. split; [|split; exact I].
  right. unfold get. rewrite Hcid. reflexivity.
Qed.

Lemma verify_appended self l now_txn now_block cd wr di cid :
  reachable self (Stored l) ->
  Py.lookup "certificate_id" cd = Some (JStr cid) -> cid <> "" ->
  _verify_local_certificate self (Some cid) None None
    (Stored (with_blocks l (blocks l ++ [appended now_txn now_block cd wr di (blocks l)])))
  = ({| found := true; verification_status := VALID;
        report :=
          Some {| integrity_valid := true; chain_valid := true;
                  found_index := Z.of_nat (length (blocks l));
                  found_hash := block_hash (appended now_txn now_block cd wr di (blocks l));
                  found_timestamp := now_block;
                  found_transaction := _generate_transaction_id now_txn di wr;
                  certificate_data := data (appended now_txn now_block cd wr di (blocks l)) |};
        message := None |},
     Stored (with_blocks l (blocks l ++ [appended now_txn now_block cd wr di (blocks l)]))).
Proof.
  intros Hr Hcid Hne.
  pose proof (reach_append self (Stored l) now_txn now_block cd wr di Hr) as Hr'.
  rewrite record_local_stored in Hr'. cbn [snd] in Hr'.
  set (nb := appended now_txn now_block cd wr di (blocks l)) in *.
  set (l' := with_blocks l (blocks l ++ [nb])) in *.
  assert (String.eqb (block_hash nb) (_calculate_block_hash (block_dict nb)) = true)
    as Hintegrity.
  { apply String.eqb_eq. apply appended_sealed. }
  assert (_verify_chain_integrity l' (block_index nb) = true) as Hchain.
  { eapply reachable_verifies; [exact Hr'|reflexivity]. }
  assert (last_item (List.filter (selected (Some cid) None None) (blocks l')) = Some nb)
    as Hlast.
  { apply (last_item_filter _ _ (length (blocks l))).
    - cbn [blocks l' with_blocks]. rewrite lookup_app_r by lia.
      rewrite Nat.sub_diag. reflexivity.
    - apply appended_selected; assumption.
    - intros j y Hj Hy. apply lookup_lt_Some in Hy. cbn [blocks l' with_blocks] in Hy.
      rewrite length_app in Hy. cbn [length] in Hy. lia. }
  rewrite verify_local_stored, Hlast, Hintegrity, Hchain. reflexivity.
Qed.

(** X3: a certificate recorded on a ledger built by initialisation and
    appends is found at once when asked for by its identifier: the answer
    is VALID and describes the very block the append returned. *)
Theorem record_then_verify self f l now_txn now_block cd wr di cid :
  reachable self f -> f = Stored l ->
  Py.lookup "certificate_id" cd = Some (JStr cid) -> cid <> "" ->
  exists (f' : file) (v : verification) (r : match_report) (prev : string) (chash : json),
    _record_local_erasure self now_txn now_block cd wr di f
    = (Ok (LocalEntry (found_index r) (found_hash r) (found_transaction r)
             (found_timestamp r) prev chash), f')
    /\ _verify_local_certificate self (Some cid) None None f' = (v, f')
    /\ found v = true /\ verification_status v = VALID /\ report v = Some r
    /\ found_index r = Z.of_nat (length (blocks l))
    /\ integrity_valid r = true /\ chain_valid r = true.
Proof.
  intros Hr -> Hcid Hne.
  exists (Stored (with_blocks l (blocks l
                                 ++ [appended now_txn now_block cd wr di (blocks l)]))).
  eexists.
  exists {| integrity_valid := true; chain_valid := true;
            found_index := Z.of_nat (length (blocks l));
            found_hash := block_hash (appended now_txn now_block cd wr di (blocks l));
            found_timestamp := now_block;
            found_transaction := _generate_transaction_id now_txn di wr;
            certificate_data := data (appended now_txn now_block cd wr di (blocks l)) |}.
  do 2 eexists.
  split; [|split; [apply (verify_appended self l now_txn now_block cd wr di cid Hr Hcid Hne)|]].
  - rewrite record_local_stored. reflexivity.
  - cbn [found verification_status report found_index integrity_valid chain_valid].
    repeat split; reflexivity.
Qed.

Lemma record_then_verify_witness :
  exists (f' : file) (v : verification),
    snd (_record_local_erasure Examples.service "2024-06-01T10:00:00.000100"
           "2024-06-01T10:00:00.000200" Examples.first_certificate Examples.sdb_report
           Examples.sdb Examples.two_records) = f'
    /\ _verify_local_certificate Examples.service (Some "3F2A9C0B7D1E4A55") None None f'
       = (v, f')
    /\ verification_status v = VALID
    /\ option_map found_index (report v) = Some 3.
Proof.
  destruct (record_then_verify Examples.service Examples.two_records
              (Examples.contents Examples.two_records)
              "2024-06-01T10:00:00.000100" "2024-06-01T10:00:00.000200"
              Examples.first_certificate Examples.sdb_report Examples.sdb
              "3F2A9C0B7D1E4A55" two_records_reachable two_records_stored)
    as (f' & v & r & prev & chash & Hrec & Hver & _ & Hvalid & Hrep & Hidx & _).
  - reflexivity.
  - discriminate.
  - exists f', v. rewrite Hrec. cbn [snd]. split; [reflexivity|].
    split; [exact Hver|]. split; [exact Hvalid|].
    rewrite Hrep. cbn [option_map]. rewrite Hidx, two_records_blocks. reflexivity.
Defined.


Lemma records_for_app serial bs bs' :
  records_for serial (bs ++ bs') = records_for serial bs ++ records_for serial bs'.
Proof.
  induction bs as [|x bs IH]; [reflexivity|].
  cbn [app records_for].
  destruct (data x) as [m | c h s md t wm ws w1 w2 sim]; [exact IH|].
  destruct s as [| | |s| |]; try exact IH.
  destruct (String.eqb s serial); [|exact IH].
  rewrite IH. reflexivity.
Qed.

Lemma search_local_stored self serial l :
  ledger_type self = "local" ->
  search_by_serial self serial (Stored l) = (Ok (records_for serial (blocks l)), Stored l).
Proof.
  intros Hlocal. unfold search_by_serial. rewrite Hlocal.
  change (String.eqb "local" "local") with true. cbn [negb json_load bind try_except].
  rewrite search_filter_records. reflexivity.
Qed.

Lemma records_for_appended now_txn now_block cd wr di bs serial other :
  Py.lookup "serial" di = Some (JStr serial) ->
  records_for other [appended now_txn now_block cd wr di bs]
  = if String.eqb serial other
    then [summarize (appended now_txn now_block cd wr di bs)] else [].
Proof.
  intros Hserial.
  assert (get di "serial" (JStr "N/A") = JStr serial) as Hget.
  { unfold get. rewrite Hserial. reflexivity. }
  unfold summarize, appended. cbn [records_for data]. rewrite Hget.
  destruct (String.eqb serial other); reflexivity.
Qed.

(** X4: after an append, a search for the serial of the recorded device
    returns what it returned before followed by one summary of the new
    block; a search for any other serial returns what it returned before. *)
Theorem record_then_search self l now_txn now_block cd wr di serial other :
  ledger_type self = "local" ->
  Py.lookup "serial" di = Some (JStr serial) -> other <> serial ->
  exists (f' : file) (e : entry) (new : summary),
    _record_local_erasure self now_txn now_block cd wr di (Stored l) = (Ok e, f')
    /\ search_by_serial self serial f'
       = (Ok (records_for serial (blocks l) ++ [new]), f')
    /\ search_by_serial self serial (Stored l)
       = (Ok (records_for serial (blocks l)), Stored l)
    /\ s_block_index new = Z.of_nat (length (blocks l))
    /\ s_timestamp new = now_block
    /\ s_certificate_id new = get cd "certificate_id" (JStr "N/A")
    /\ s_certificate_hash new = get cd "certificate_hash" (JStr "N/A")
    /\ fst (search_by_serial self other f') = fst (search_by_serial self other (Stored l)).
Proof.
  intros Hlocal Hserial Hother.
  rewrite record_local_stored.
  exists (Stored (with_blocks l (blocks l ++ [appended now_txn now_block cd wr di (blocks l)]))).
  eexists. exists (summarize (appended now_txn now_block cd wr di (blocks l))).
  split; [reflexivity|].
  rewrite !(search_local_stored self _ _ Hlocal). cbn [blocks with_blocks fst].
  rewrite !records_for_app, !(records_for_appended _ _ _ _ _ _ serial _ Hserial).
  rewrite String.eqb_refl.
  destruct (String.eqb_spec serial other) as [Heq|_]; [congruence|].
  rewrite app_nil_r. repeat split; reflexivity.
Qed.

Lemma record_then_search_witness :
  exists (f' : file) (new : summary),
    snd (_record_local_erasure Examples.service "2024-06-01T10:00:00.000100"
           "2024-06-01T10:00:00.000200" Examples.first_certificate Examples.sdb_report
           Examples.sdb (Stored (Examples.contents Examples.two_records))) = f'
    /\ search_by_serial Examples.service "WD-WCC123456789" f'
       = (Ok (records_for "WD-WCC123456789"
                (blocks (Examples.contents Examples.two_records)) ++ [new]), f')
    /\ s_block_index new = 3
    /\ fst (search_by_serial Examples.service "S3Z9NB0M123456" f')
       = fst (search_by_serial Examples.service "S3Z9NB0M123456"
                (Stored (Examples.contents Examples.two_records))).
Proof.
  destruct (record_then_search Examples.service (Examples.contents Examples.two_records)
              "2024-06-01T10:00:00.000100" "2024-06-01T10:00:00.000200"
              Examples.first_certificate Examples.sdb_report Examples.sdb
              "WD-WCC123456789" "S3Z9NB0M123456")
    as (f' & e & new & Hrec & Hafter & _ & Hidx & _ & _ & _ & Hother).
  - reflexivity.
  - reflexivity.
  - discriminate.
  - exists f', new. rewrite Hrec. cbn [snd]. split; [reflexivity|].
    split; [exact Hafter|]. split; [|exact Hother].
    rewrite Hidx, two_records_blocks. reflexivity.
Defined.

(** ** What never happens to the file *)

(** X5: [record_erasure] is append-only. Either a local service found a
    ledger and stored it again with one block added after the blocks it
    had, or the file is exactly as it was; and a local service that finds
    no ledger to read raises. *)
Theorem record_erasure_append_only self now_txn now_block epoch cd wr di f :
  (exists (l : ledger) (b : block) (e : entry),
      ledger_type self = "local" /\ f = Stored l
      /\ record_erasure self now_txn now_block epoch cd wr di f
         = (Ok e, Stored (with_blocks l (blocks l ++ [b]))))
  \/ (snd (record_erasure self now_txn now_block epoch cd wr di f) = f
      /\ (ledger_type self = "local" ->
          (forall l, f <> Stored l)
          /\ exists e, fst (record_erasure self now_txn now_block epoch cd wr di f) = Raise e)).
Proof.
  unfold record_erasure.
  destruct (String.eqb_spec (ledger_type self) "local") as [Hlocal|Hother].
  - destruct f as [|e|l].
    + right. split; [reflexivity|]. intros _. split; [discriminate|]. eexists. reflexivity.
    + right. split; [reflexivity|]. intros _. split; [discriminate|]. eexists. reflexivity.
    + left. do 3 eexists. split; [assumption|]. split; [reflexivity|].
      apply record_local_stored.
  - right. split; [|contradiction].
    destruct (String.eqb (ledger_type self) "hyperledger"); reflexivity.
Qed.

(** X6: verification only reads. Whatever the service type, the filters
    and the state of the file, the file is left as it was; and the local
    verification answers ERROR, with nothing found, exactly when there is
    no ledger it can read. *)
Theorem verification_only_reads self cid sn ch f :
  snd (verify_certificate self cid sn ch f) = f
  /\ snd (_verify_local_certificate self cid sn ch f) = f
  /\ (verification_status (fst (_verify_local_certificate self cid sn ch f)) = ERROR
      <-> forall l, f <> Stored l)
  /\ (verification_status (fst (_verify_local_certificate self cid sn ch f)) = ERROR ->
      found (fst (_verify_local_certificate self cid sn ch f)) = false
      /\ report (fst (_verify_local_certificate self cid sn ch f)) = None).
Proof.
  split; [|split; [reflexivity|]].
  - unfold verify_certificate.
    destruct (String.eqb (ledger_type self) "local"); [reflexivity|].
    destruct (String.eqb (ledger_type self) "hyperledger"); reflexivity.
  - destruct f as [|e|l].
    + split; [split; [discriminate|reflexivity]|]. intros _. split; reflexivity.
    + split; [split; [discriminate|reflexivity]|]. intros _. split; reflexivity.
    + rewrite verify_local_stored. cbn [fst].
      destruct (last_item (List.filter (selected cid sn ch) (blocks l))) as [b|].
      * cbn [verification_status found report].
        destruct (String.eqb (block_hash b) (_calculate_block_hash (block_dict b))
                  && _verify_chain_integrity l (block_index b)).
        -- split; [split; [discriminate|]|discriminate]. intros H. exfalso. exact (H l eq_refl).
        -- split; [split; [discriminate|]|discriminate]. intros H. exfalso. exact (H l eq_refl).
      * cbn [verification_status found report].
        split; [split; [discriminate|]|discriminate]. intros H. exfalso. exact (H l eq_refl).
Qed.

(** ** Statistics *)

Lemma reachable_shape self f :
  reachable self f ->
  exists l g rest, f = Stored l /\ blocks l = g :: rest
                   /\ is_certificate g = false /\ List.filter is_certificate rest = rest.
Proof.
  induction 1 as [nc ng | f nt nb cd wr di Hr (l & g & rest & -> & Hbl & Hg & Hrest)].
  - do 3 eexists. split; [reflexivity|]. split; [reflexivity|]. split; reflexivity.
  - rewrite record_on_stored. exists (with_blocks l (blocks l ++ [appended nt nb cd wr di (blocks l)])).
    exists g, (rest ++ [appended nt nb cd wr di (blocks l)]).
    split; [reflexivity|]. split; [cbn [blocks with_blocks]; rewrite Hbl at 1; reflexivity|].
    split; [assumption|]. rewrite List.filter_app, Hrest. reflexivity.
Qed.

(** X7: on a ledger built by initialisation and appends the statistics
    count every block, count one erasure record fewer (all but the genesis
    block), give the time of the last block and report a valid chain. *)
Theorem stats_of_reachable self f l :
  reachable self f -> f = Stored l -> ledger_type self = "local" ->
  exists (last_block : block),
    last_item (blocks l) = Some last_block
    /\ get_ledger_stats self f
       = Figures (length (blocks l)) (length (blocks l) - 1) (created_at l)
                 (timestamp last_block) true.
Proof.
  intros Hr -> Hlocal.
  pose proof (reachable_verifies self (Stored l) l
                (Z.of_nat (length (blocks l)) - 1) Hr eq_refl) as Hchain.
  apply reachable_shape in Hr as (l' & g & rest & [= <-] & Hbl & Hg & Hrest).
  unfold get_ledger_stats. rewrite Hlocal.
  change (String.eqb "local" "local") with true. cbn [json_load bind try_except].
  rewrite Hchain.
  destruct (last_item (blocks l)) as [b|] eqn:Hlast.
  - exists b. split; [reflexivity|]. do 2 f_equal.
    rewrite Hbl. cbn [List.filter length]. rewrite Hg, Hrest. lia.
  - rewrite last_item_lookup, Hbl in Hlast. cbn [length] in Hlast.
    apply lookup_ge_None in Hlast. cbn [length] in Hlast. lia.
Qed.

Lemma stats_of_reachable_witness :
  exists (created last_time : string),
    get_ledger_stats Examples.service Examples.two_records
    = Figures 3 2 created last_time true.
Proof.
  destruct (stats_of_reachable Examples.service Examples.two_records
              (Examples.contents Examples.two_records)
              two_records_reachable two_records_stored eq_refl)
    as (b & _ & Hstats).
  do 2 eexists. rewrite Hstats, two_records_blocks. reflexivity.
Defined.

End LedgerMore.

(** * Further properties of the job registry *)

Module WipeMore.
Import Py WipeService WipeSpec WipeProps.

Lemma outcome_cons clock tick id c rest (reg : registry) :
  outcome clock tick id (c :: rest) reg
  = outcome clock (S tick) id rest (perform (clock tick) id c reg).
Proof.
  unfold outcome. cbn [history].
  destruct (history clock (S tick) id rest (perform (clock tick) id c reg)) as [|r rs];
    [reflexivity|].
  change (List.last (perform (clock tick) id c reg :: r :: rs) reg)
    with (List.last (r :: rs) reg).
  apply last_any_default.
Qed.

Lemma outcome_other clock tick id id' calls (reg : registry) :
  id' <> id -> outcome clock tick id calls reg !! id' = reg !! id'.
Proof.
  intros Hne. revert tick reg. induction calls as [|c rest IH]; intros tick reg;
    [reflexivity|].
  rewrite outcome_cons, IH. apply perform_other. congruence.
Qed.

Lemma outcome_absent clock tick id calls (reg : registry) :
  reg !! id = None -> outcome clock tick id calls reg = reg.
Proof.
  revert tick. induction calls as [|c rest IH]; intros tick Hnone; [reflexivity|].
  rewrite outcome_cons, (perform_absent _ _ _ _ Hnone). apply IH. assumption.
Qed.

Lemma replay_keeps_inputs clock tick calls w :
  device (replay clock tick calls w) = device w
  /\ method (replay clock tick calls w) = method w
  /\ start_time (replay clock tick calls w) = start_time w
  /\ simulated (replay clock tick calls w) = simulated w
  /\ exists extra, logs (replay clock tick calls w) = logs w ++ extra.
Proof.
  revert tick w. induction calls as [|c rest IH]; intros tick w.
  - repeat split; try reflexivity. exists []. symmetry. apply app_nil_r.
  - cbn [replay].
    destruct (IH (S tick) (updated (clock tick) (c_status c) (c_progress c) (c_log c)
                             (c_error c) w)) as (Hd & Hm & Hs & Hsim & extra & Hl).
    destruct (updated_logs (clock tick) (c_status c) (c_progress c) (c_log c) (c_error c) w)
      as [extra0 Hl0].
    repeat split; try assumption.
    exists (extra0 ++ extra). rewrite Hl, Hl0, app_assoc. reflexivity.
Qed.

(** X8: whatever calls a worker makes for its job, every other job of the
    registry is left as it was, no job appears or disappears, and of its
    own job the device, the method, the start time and the simulation flag
    stay as they were at the start while the log only grows at its end. *)
Theorem worker_touches_only_its_job clock tick id calls (reg : registry) :
  (forall id', id' <> id -> outcome clock tick id calls reg !! id' = reg !! id')
  /\ (reg !! id = None -> outcome clock tick id calls reg = reg)
  /\ (forall w, reg !! id = Some w ->
        exists w', outcome clock tick id calls reg !! id = Some w'
                   /\ device w' = device w /\ method w' = method w
                   /\ start_time w' = start_time w /\ simulated w' = simulated w
                   /\ exists extra, logs w' = logs w ++ extra).
Proof.
  split; [|split].
  - intros id' Hne. apply outcome_other. assumption.
  - apply outcome_absent.
  - intros w Hw. exists (replay clock tick calls w).
    split; [apply outcome_replay; assumption|]. apply replay_keeps_inputs.
Qed.

Lemma worker_touches_only_its_job_witness :
  WipeExamples.sdb_done !! "wipe_1_dev_sdc" = None
  /\ exists w', WipeExamples.sdb_done !! WipeExamples.sdb_id = Some w'
                /\ device w' = "/dev/sdb" /\ simulated w' = true.
Proof.
  destruct (worker_touches_only_its_job WipeExamples.clock 1 WipeExamples.sdb_id
              (_run_wipe "/dev/sdb" "dodshort" false true (Exits [] 0))
              (snd WipeExamples.sdb_started)) as (Hother & _ & Hown).
  split.
  - unfold WipeExamples.sdb_done. rewrite Hother; [vm_compute; reflexivity|discriminate].
  - destruct (Hown (fresh_job (WipeExamples.clock 0) "/dev/sdb" "dodshort" true))
      as (w' & Hw' & Hd & _ & _ & Hsim & _).
    + vm_compute. reflexivity.
    + exists w'. split; [exact Hw'|]. split; assumption.
Defined.

(** ** A real erasure *)









(** ** Reading a percentage *)

Lemma search_percent_without_sign run s :
  ~ In "%"%char (chars s) -> search_percent run s = None.
Proof.
  revert run. induction s as [|c s IH]; intros run Hno; [reflexivity|].
  cbn [search_percent].
  assert (~ In "%"%char (chars s)) as Hs by (intros Hin; apply Hno; right; exact Hin).
  destruct (isdigit c); [apply IH; assumption|].
  destruct (Ascii.eqb_spec c "%") as [->|_]; [|apply IH; assumption].
  exfalso. apply Hno. left. reflexivity.
Qed.

Lemma search_percent_nonnegative s : forall run n,
  match run with Some r => 0 <= r | None => True end ->
  search_percent run s = Some n -> 0 <= n.
Proof.
  induction s as [|c s IH]; intros run n Hrun; [discriminate|].
  cbn [search_percent]. destruct (isdigit c) eqn:Hd.
  - apply IH. unfold isdigit in Hd. destruct run; lia.
  - destruct (Ascii.eqb c "%").
    + destruct run as [r|]; [intros [= <-]; assumption|apply IH; exact I].
    + apply IH. exact I.
Qed.

(** X10: a line without a percent sign gives no percentage, so the update
    it causes leaves the job's progress as it was; a percentage that is
    read is never negative. *)
Theorem line_without_percentage line :
  (~ In "%"%char (chars line) ->
   _parse_nwipe_progress line = None
   /\ forall now st log err w,
        progress (updated now st (_parse_nwipe_progress line) log err w) = progress w)
  /\ (forall n, _parse_nwipe_progress line = Some n -> 0 <= n).
Proof.
  split.
  - intros Hno. pose proof (search_percent_without_sign None line Hno) as Hnone.
    split; [exact Hnone|]. intros. unfold _parse_nwipe_progress. rewrite Hnone. reflexivity.
  - intros n. apply search_percent_nonnegative. exact I.
Qed.

Lemma line_without_percentage_witness :
  _parse_nwipe_progress "Pass 1 of 3" = None.
Proof.
  apply (line_without_percentage "Pass 1 of 3"). vm_compute. intuition discriminate.
Defined.

Lemma digit_is_plain c :
  isdigit c = true ->
  isspace c = false /\ c <> "%"%char /\ c <> "-"%char /\ c <> "+"%char.
Proof.
  destruct c as [[] [] [] [] [] [] [] []]; vm_compute; intuition discriminate.
Qed.

Lemma rstrip_by_none p s :
  forallb (fun c => negb (p c)) (chars s) = true -> rstrip_by p s = s.
Proof.
  induction s as [|c s IH]; [reflexivity|].
  cbn [chars list_ascii_of_string forallb]. intros [Hc Hs]%andb_true_iff.
  cbn [rstrip_by]. rewrite (IH Hs).
  destruct s; [|reflexivity]. apply negb_true_iff in Hc. rewrite Hc. reflexivity.
Qed.

Lemma int_of_digits ds n :
  forallb isdigit (chars ds) = true -> int ds = Ok n -> digits_value 0 false ds = Some n.
Proof.
  intros Hds. unfold int.
  assert (strip ds = ds) as ->.
  { unfold strip. destruct ds as [|c ds]; [reflexivity|].
    cbn [chars list_ascii_of_string forallb] in Hds.
    apply andb_true_iff in Hds as [Hc Hrest].
    cbn [lstrip_by]. destruct (digit_is_plain c Hc) as (-> & _).
    apply rstrip_by_none. cbn [chars list_ascii_of_string forallb].
    destruct (digit_is_plain c Hc) as (-> & _). cbn [negb andb].
    clear -Hrest. induction ds as [|d ds IH]; [reflexivity|].
    cbn [chars list_ascii_of_string forallb] in *.
    apply andb_true_iff in Hrest as [Hd Hrest].
    destruct (digit_is_plain d Hd) as (-> & _). cbn [negb andb]. apply IH. assumption. }
  destruct ds as [|c ds]; [discriminate|].
  cbn [chars list_ascii_of_string forallb] in Hds.
  apply andb_true_iff in Hds as [Hc _].
  destruct (digit_is_plain c Hc) as (_ & _ & Hminus & Hplus).
  assert (match String c ds with
          | String "-" r => option_map Z.opp (digits_value 0 false r)
          | String "+" r => digits_value 0 false r
          | _ => digits_value 0 false (String c ds)
          end = digits_value 0 false (String c ds)) as ->.
  { destruct c as [[] [] [] [] [] [] [] []]; try reflexivity; congruence. }
  destruct (digits_value 0 false (String c ds)); [intros [= ->]; reflexivity|discriminate].
Qed.

Lemma search_percent_digits tail ds : forall acc,
  forallb isdigit (chars ds) = true ->
  search_percent (Some acc) (ds +:+ String "%" tail) = digits_value acc true ds.
Proof.
  induction ds as [|c ds IH]; intros acc Hds; [reflexivity|].
  cbn [chars list_ascii_of_string forallb] in Hds.
  apply andb_true_iff in Hds as [Hc Hds].
  change (String c ds +:+ String "%" tail) with (String c (ds +:+ String "%" tail)).
  cbn [search_percent digits_value]. rewrite Hc. apply IH. assumption.
Qed.

Lemma search_percent_skips pre rest : forall run,
  pre <> "" -> ~ In "%"%char (chars pre) ->
  (forall c, last (chars pre) = Some c -> isdigit c = false) ->
  search_percent run (pre +:+ rest) = search_percent None rest.
Proof.
  induction pre as [|c pre IH]; intros run Hne Hno Hlast; [contradiction|].
  change (String c pre +:+ rest) with (String c (pre +:+ rest)).
  assert (c <> "%"%char) as Hc by (intros ->; apply Hno; left; reflexivity).
  destruct pre as [|d pre].
  - change ("" +:+ rest) with rest. cbn [search_percent].
    rewrite (Hlast c eq_refl). destruct (Ascii.eqb_spec c "%"); [contradiction|reflexivity].
  - assert (forall run', search_percent run' (String d pre +:+ rest) = search_percent None rest)
      as Hrest.
    { intros run'. apply IH; [discriminate| |].
      - intros Hin. apply Hno. right. exact Hin.
      - intros c' Hc'. apply Hlast. exact Hc'. }
    cbn [search_percent]. destruct (isdigit c); [apply Hrest|].
    destruct (Ascii.eqb_spec c "%"); [contradiction|apply Hrest].
Qed.

(** X11: when a line has no percent sign before its first run of digits
    that a percent sign follows, and that run starts the line or comes after
    a character that is no digit, the percentage read is the [int] of that
    run, whatever follows the sign: it is not limited to 100. *)
Theorem percentage_is_number_before_sign pre ds tail n :
  ~ In "%"%char (chars pre) ->
  (forall c, last (chars pre) = Some c -> isdigit c = false) ->
  forallb isdigit (chars ds) = true ->
  int ds = Ok n ->
  _parse_nwipe_progress (pre +:+ ds +:+ String "%" tail) = Some n.
Proof.
  intros Hno Hlast Hds Hint. apply (int_of_digits ds n Hds) in Hint.
  unfold _parse_nwipe_progress.
  assert (search_percent None (ds +:+ String "%" tail) = Some n) as Hrun.
  { destruct ds as [|c ds]; [discriminate|].
    cbn [chars list_ascii_of_string forallb] in Hds.
    apply andb_true_iff in Hds as [Hc Hds].
    change (String c ds +:+ String "%" tail) with (String c (ds +:+ String "%" tail)).
    cbn [search_percent]. cbn [digits_value] in Hint. rewrite Hc in *.
    rewrite search_percent_digits by assumption. exact Hint. }
  destruct pre as [|c pre]; [exact Hrun|].
  rewrite search_percent_skips; [exact Hrun|discriminate|assumption|assumption].
Qed.

Lemma percentage_is_number_before_sign_witness :
  _parse_nwipe_progress "Pass 1: 250% (12 MB/s)" = Some 250.
Proof.
  apply (percentage_is_number_before_sign "Pass 1: " "250" " (12 MB/s)" 250).
  - vm_compute. intuition discriminate.
  - vm_compute. intros c [= <-]. reflexivity.
  - reflexivity.
  - reflexivity.
Defined.

(** ** Pages of the log *)

(** X12: a page of the log of a known job is the log without its first
    entries, with the length of the whole log as total: from position
    [since] on when [since] is not negative, empty from the length of the
    log on, and the last [- since] entries, or the whole log if it is
    shorter, when [since] is negative. For an unknown job there is no
    page. *)
Theorem log_page_is_a_suffix id since (reg : registry) :
  (reg !! id = None -> get_wipe_logs id since reg = None)
  /\ (forall w, reg !! id = Some w ->
        exists page before,
          get_wipe_logs id since reg = Some page
          /\ logs w = before ++ page_logs page
          /\ total_count page = length (logs w)
          /\ page_status page = status w /\ page_progress page = progress w
          /\ Z.of_nat (length before)
             = if since <? 0 then Z.max 0 (Z.of_nat (length (logs w)) + since)
               else Z.min (Z.of_nat (length (logs w))) since).
Proof.
  unfold get_wipe_logs. split.
  - intros ->. reflexivity.
  - intros w ->. eexists. exists (firstn (clamp (logs w) since) (logs w)).
    split; [reflexivity|]. cbn [page_logs total_count page_status page_progress].
    unfold slice_from. rewrite firstn_skipn.
    split; [reflexivity|]. split; [reflexivity|]. split; [reflexivity|].
    split; [reflexivity|].
    rewrite length_firstn. unfold clamp. destruct (since <? 0) eqn:Hneg; lia.
Qed.

Lemma log_page_is_a_suffix_witness :
  get_wipe_logs "wipe_1_dev_sdc" (-3) WipeExamples.real_failed = None
  /\ exists page (before : list log_entry),
       get_wipe_logs WipeExamples.sdb_id (-3) WipeExamples.real_failed = Some page
       /\ length before = 1%nat /\ length (page_logs page) = 3%nat.
Proof.
  destruct (log_page_is_a_suffix "wipe_1_dev_sdc" (-3) WipeExamples.real_failed)
    as [Hunknown _].
  destruct (log_page_is_a_suffix WipeExamples.sdb_id (-3) WipeExamples.real_failed)
    as [_ Hknown].
  split; [apply Hunknown; vm_compute; reflexivity|].
  destruct (WipeExamples.real_failed !! WipeExamples.sdb_id) as [w|] eqn:Hw;
    [|vm_compute in Hw; discriminate Hw].
  assert (length (logs w) = 4%nat) as Hfour.
  { vm_compute in Hw. injection Hw as <-. reflexivity. }
  destruct (Hknown w eq_refl) as (page & before & Hpage & Hsplit & _ & _ & _ & Hlen).
  exists page, before. split; [exact Hpage|].
  rewrite Hfour in Hlen. change (-3 <? 0) with true in Hlen. cbv iota in Hlen.
  assert (length before = 1%nat) as Hone by lia.
  split; [exact Hone|].
  apply (f_equal (@length log_entry)) in Hsplit. rewrite length_app in Hsplit. lia.
Defined.

(** ** The summary of a report *)

(** X13: the summary of a log holds, in the order of the log, the last ten
    of its messages that contain one of the keywords in some mix of upper
    and lower case, or all of them if they are ten or fewer; no other
    message is in it. *)
Theorem summary_is_last_ten_important logs :
  exists dropped,
    List.filter important (map log_message logs) = dropped ++ _summarize_logs logs
    /\ length (_summarize_logs logs)
       = Nat.min 10 (length (List.filter important (map log_message logs)))
    /\ Forall (fun msg => important msg = true) (_summarize_logs logs).
Proof.
  unfold _summarize_logs. set (l := List.filter important (map log_message logs)).
  exists (firstn (clamp l (-10)) l). unfold slice_from.
  split; [symmetry; apply firstn_skipn|]. split.
  - rewrite length_skipn. unfold clamp. change (-10 <? 0) with true. cbv iota. lia.
  - apply Forall_forall. intros msg Hin%list_elem_of_In.
    assert (In msg l) as Hl.
    { rewrite <- (firstn_skipn (clamp l (-10)) l). apply in_or_app. right. exact Hin. }
    unfold l in Hl. apply filter_In in Hl. apply Hl.
Qed.

(** ** A simulated erasure *)

Lemma history_progress clock id c rest (reg : registry) w : forall tick,
  reg !! id = Some w ->
  map (progress_of id) (history clock tick id (c :: rest) reg)
  = Some (progress (updated (clock tick) (c_status c) (c_progress c) (c_log c) (c_error c) w))
    :: map (progress_of id) (history clock (S tick) id rest (perform (clock tick) id c reg))
  /\ perform (clock tick) id c reg !! id
     = Some (updated (clock tick) (c_status c) (c_progress c) (c_log c) (c_error c) w).
Proof.
  intros tick Hw. pose proof (perform_lookup (clock tick) id c reg w Hw) as Hnext.
  split; [|exact Hnext]. cbn [history map]. unfold progress_of at 1. rewrite Hnext.
  reflexivity.
Qed.

Lemma history_progress_given clock id calls : forall tick (reg : registry) w,
  reg !! id = Some w ->
  Forall (fun c => exists p, c_progress c = Some p) calls ->
  map (progress_of id) (history clock tick id calls reg) = map c_progress calls.
Proof.
  induction calls as [|c rest IH]; intros tick reg w Hw Hall; [reflexivity|].
  inversion Hall as [|? ? [p Hp] Hrest]; subst.
  destruct (history_progress clock id c rest reg w tick Hw) as [-> Hnext].
  cbn [map]. rewrite (IH _ _ _ Hnext Hrest), Hp. reflexivity.
Qed.

(** X14: when neither the device path nor the method contains
    "Progress:", a simulated job makes nineteen updates and ends completed
    at 100 with no error, with the eighteen lines of the script as its log
    and the time of the last update as end time; the progress a client can
    observe after each update is 0, 5, 11, 16, 22, 10, 25, 40, 44, 50, 65,
    75, 66, 85, 95, 100, 88, 100, 100, which is not monotone. *)
Theorem simulated_erasure_outcome clock tick id now dp m v proc (reg : registry) :
  contains "Progress:" dp = false -> contains "Progress:" m = false ->
  reg !! id = Some (fresh_job now dp m true) ->
  map (progress_of id) (history clock tick id (_run_wipe dp m v true proc) reg)
  = map Some (scripted_progress ++ [100])
  /\ rising (scripted_progress ++ [100]) = false
  /\ exists w, outcome clock tick id (_run_wipe dp m v true proc) reg !! id = Some w
               /\ map log_message (logs w) = stages dp m
               /\ status w = completed /\ progress w = 100 /\ error w = None
               /\ end_time w = Some (clock (tick + 18)%nat).
Proof.
  intros Hdp Hm Hreg. split; [|split; [vm_compute; reflexivity|]].
  - rewrite (simulated_run dp m v proc Hdp Hm).
    rewrite (history_progress_given clock id (script dp m) tick reg _ Hreg).
    + vm_compute. reflexivity.
    + unfold script, stages, scripted_progress. cbn [combine map app fst snd].
      repeat (constructor; [eexists; reflexivity|]). constructor.
  - rewrite (simulated_run dp m v proc Hdp Hm).
    eexists. split; [apply outcome_replay; exact Hreg|].
    split; [vm_compute; reflexivity|]. split; [reflexivity|]. split; [reflexivity|].
    split; [reflexivity|].
    cbn [script stages scripted_progress combine map app replay updated end_time c_status].
    do 18 f_equal. lia.
Qed.

Lemma simulated_erasure_outcome_witness :
  map (progress_of WipeExamples.sdb_id) WipeExamples.sdb_history
  = map Some [0; 5; 11; 16; 22; 10; 25; 40; 44; 50; 65; 75; 66; 85; 95; 100; 88; 100; 100].
Proof.
  apply (simulated_erasure_outcome WipeExamples.clock 1 WipeExamples.sdb_id
           (WipeExamples.clock 0) "/dev/sdb" "dodshort" false (Exits [] 0)
           (snd WipeExamples.sdb_started)).
  - reflexivity.
  - reflexivity.
  - vm_compute. reflexivity.
Defined.

(** ** Following a job *)



(** ** One job for each device *)

Lemma outcome_device clock tick id calls (reg : registry) id' w' :
  outcome clock tick id calls reg !! id' = Some w' ->
  exists w, reg !! id' = Some w /\ device w = device w'.
Proof.
  destruct (decide (id' = id)) as [->|Hne].
  - destruct (reg !! id) as [w|] eqn:Hw.
    + rewrite (outcome_replay clock tick id calls reg w Hw). intros [= <-].
      exists w. split; [reflexivity|]. symmetry. apply replay_keeps_inputs.
    + rewrite (outcome_absent clock tick id calls reg Hw), Hw. discriminate.
  - rewrite outcome_other by assumption. intros Hw'. exists w'. split; [assumption|reflexivity].
Qed.

(** X16: the registry never holds two jobs for the same device: it is so
    when the service starts, and neither a start request, accepted or
    refused, nor the updates of a worker change it. *)
Theorem one_job_for_each_device :
  distinct_devices ∅
  /\ (forall epoch now dp m v sim (reg : registry),
        distinct_devices reg -> distinct_devices (snd (start_wipe epoch now dp m v sim reg)))
  /\ (forall clock tick id calls (reg : registry),
        distinct_devices reg -> distinct_devices (outcome clock tick id calls reg)).
Proof.
  split; [|split].
  - intros id id' w w' Hw. rewrite lookup_empty in Hw. discriminate.
  - intros epoch now dp m v sim reg Hreg. unfold start_wipe.
    destruct (bool_decide (dp ∈ map device (map snd (map_to_list reg)))) eqn:Hin; [exact Hreg|].
    apply bool_decide_eq_false in Hin. rewrite device_listed in Hin.
    cbn [snd]. set (wid := "wipe_" +:+ str_of_int epoch +:+ "_" +:+ replace "/" "_" dp).
    intros id id' w w' Hw Hw' Hdev.
    destruct (decide (id = wid)) as [->|Hne]; destruct (decide (id' = wid)) as [->|Hne'].
    + reflexivity.
    + rewrite lookup_insert_eq in Hw. rewrite lookup_insert_ne in Hw' by congruence.
      injection Hw as <-. exfalso. apply Hin. exists id', w'. split; [assumption|].
      symmetry. exact Hdev.
    + rewrite lookup_insert_eq in Hw'. rewrite lookup_insert_ne in Hw by congruence.
      injection Hw' as <-. exfalso. apply Hin. exists id, w. split; assumption.
    + rewrite lookup_insert_ne in Hw by congruence.
      rewrite lookup_insert_ne in Hw' by congruence. exact (Hreg id id' w w' Hw Hw' Hdev).
  - intros clock tick id calls reg Hreg id1 id2 w1 w2 H1 H2 Hdev.
    apply outcome_device in H1 as (u1 & Hu1 & Hd1).
    apply outcome_device in H2 as (u2 & Hu2 & Hd2).
    apply (Hreg id1 id2 u1 u2 Hu1 Hu2). congruence.
Qed.

Lemma one_job_for_each_device_witness :
  distinct_devices WipeExamples.sdb_done.
Proof.
  destruct one_job_for_each_device as (Hempty & Hstart & Hrun).
  apply Hrun. apply (Hstart 1714554000 (WipeExamples.clock 0) "/dev/sdb" "dodshort" false true ∅).
  exact Hempty.
Defined.

(** X17: the identifier of a job is made of the second of the request and
    the device path with every slash turned into an underscore, so two
    devices whose paths differ only there get the same identifier within
    one second: both requests are accepted, and the job of the first device
    is replaced by the job of the second. *)
Theorem colliding_identifiers_replace_a_job epoch now now' dp dp' m m' v v' sim sim' :
  dp <> dp' -> replace "/" "_" dp = replace "/" "_" dp' ->
  let first := start_wipe epoch now dp m v sim ∅ in
  let second := start_wipe epoch now' dp' m' v' sim' (snd first) in
  exists wipe_id,
    fst first = Started wipe_id /\ fst second = Started wipe_id
    /\ snd second = {[ wipe_id := fresh_job now' dp' m' sim' ]}.
Proof.
  intros Hne Hsame first second.
  exists ("wipe_" +:+ str_of_int epoch +:+ "_" +:+ replace "/" "_" dp).
  assert (first = (Started ("wipe_" +:+ str_of_int epoch +:+ "_" +:+ replace "/" "_" dp),
                   <["wipe_" +:+ str_of_int epoch +:+ "_" +:+ replace "/" "_" dp
                     := fresh_job now dp m sim]> ∅)) as Hfirst.
  { apply start_wipe_accepts. intros id w Hw. rewrite lookup_empty in Hw. discriminate. }
  assert (second
          = (Started ("wipe_" +:+ str_of_int epoch +:+ "_" +:+ replace "/" "_" dp'),
             <["wipe_" +:+ str_of_int epoch +:+ "_" +:+ replace "/" "_" dp'
               := fresh_job now' dp' m' sim']> (snd first))) as Hsecond.
  { apply start_wipe_accepts. intros id w. rewrite Hfirst. cbn [snd].
    intros Hw. apply lookup_insert_Some in Hw as [[_ <-]|[_ Hw]].
    - exact Hne.
    - rewrite lookup_empty in Hw. discriminate. }
  rewrite Hsecond, Hfirst, <- Hsame. cbn [fst snd].
  split; [reflexivity|]. split; [reflexivity|].
  rewrite insert_insert_eq. reflexivity.
Qed.

Lemma colliding_identifiers_replace_a_job_witness :
  snd (start_wipe 1714554000 "2024-05-01T09:00:00.500000" "/dev/mapper/vg_data" "zero"
         false true
         (snd (start_wipe 1714554000 "2024-05-01T09:00:00.100000" "/dev/mapper/vg/data"
                 "dodshort" false true ∅)))
  !! "wipe_1714554000__dev_mapper_vg_data"
  = Some (fresh_job "2024-05-01T09:00:00.500000" "/dev/mapper/vg_data" "zero" true).
Proof.
  destruct (colliding_identifiers_replace_a_job 1714554000
              "2024-05-01T09:00:00.100000" "2024-05-01T09:00:00.500000"
              "/dev/mapper/vg/data" "/dev/mapper/vg_data" "dodshort" "zero"
              false false true true) as (wipe_id & Hfirst & _ & Hsecond).
  - discriminate.
  - reflexivity.
  - rewrite Hsecond. vm_compute in Hfirst. injection Hfirst as <-.
    apply lookup_singleton_eq.
Defined.

End WipeMore.

(** * Identifiers and digests *)

Module FormatProps.
Import Py Ledger LedgerSpec.

Lemma step_length s kw : length s = 8%nat -> length (SHA256.step s kw) = 8%nat.
Proof.
  intros H. do 9 (destruct s as [|? s]; try discriminate H). reflexivity.
Qed.

Lemma steps_length kws : forall s,
  length s = 8%nat -> length (fold_left SHA256.step kws s) = 8%nat.
Proof.
  induction kws as [|kw kws IH]; intros s H; [exact H|].
  cbn [fold_left]. apply IH. apply step_length. exact H.
Qed.

Lemma compress_length s block : length s = 8%nat -> length (SHA256.compress s block) = 8%nat.
Proof.
  intros H. unfold SHA256.compress.
  rewrite length_map, length_combine, steps_length by exact H. rewrite H. reflexivity.
Qed.

Lemma absorb_length fuel : forall s bytes,
  length s = 8%nat -> length (SHA256.absorb fuel s bytes) = 8%nat.
Proof.
  induction fuel as [|k IH]; intros s bytes H; [exact H|].
  destruct bytes as [|b bytes]; [exact H|].
  cbn [SHA256.absorb]. apply IH. apply compress_length. exact H.
Qed.

Lemma byte_digits_hex :
  forallb (fun n => (String.length (hex2 n) =? 2)%nat && is_hex false (hex2 n))
          (map Z.of_nat (seq 0 256)) = true.
Proof. vm_compute. reflexivity. Qed.

Lemma hex2_format n :
  0 <= n < 256 -> String.length (hex2 n) = 2%nat /\ is_hex false (hex2 n) = true.
Proof.
  intros Hn. pose proof byte_digits_hex as Hall.
  rewrite forallb_forall in Hall. specialize (Hall n).
  apply andb_true_iff in Hall as [Hlen Hhex].
  - split; [apply Nat.eqb_eq; exact Hlen|exact Hhex].
  - apply in_map_iff. exists (Z.to_nat n). split; [lia|]. apply in_seq. lia.
Qed.

Lemma be_bytes_range k x : Forall (fun b => 0 <= b < 256) (SHA256.be_bytes k x).
Proof.
  induction k as [|k IH]; [constructor|].
  cbn [SHA256.be_bytes]. constructor; [|exact IH].
  change 255 with (Z.ones 8). rewrite Z.land_ones by lia.
  apply Z.mod_pos_bound. lia.
Qed.

Lemma digest_format msg :
  length (SHA256.digest msg) = 32%nat /\ Forall (fun b => 0 <= b < 256) (SHA256.digest msg).
Proof.
  unfold SHA256.digest.
  pose proof (absorb_length (length (SHA256.pad msg)) SHA256.initial_state (SHA256.pad msg)
                eq_refl) as Hlen.
  destruct (SHA256.absorb (length (SHA256.pad msg)) SHA256.initial_state (SHA256.pad msg))
    as [|a [|b [|c [|d [|e [|f [|g [|h [|]]]]]]]]]; try discriminate Hlen.
  split; [reflexivity|].
  cbn [flat_map]. repeat (apply Forall_app; split; [apply be_bytes_range|]). constructor.
Qed.

Lemma chars_append a b : chars (a +:+ b) = chars a ++ chars b.
Proof.
  unfold chars. induction a as [|c a IH]; [reflexivity|].
  change (String c a +:+ b) with (String c (a +:+ b)).
  cbn [list_ascii_of_string app]. rewrite IH. reflexivity.
Qed.

Lemma length_chars s : length (chars s) = String.length s.
Proof.
  unfold chars. induction s as [|c s IH]; [reflexivity|].
  cbn [list_ascii_of_string length String.length]. rewrite IH. reflexivity.
Qed.

Lemma is_hex_append capitals a b :
  is_hex capitals (a +:+ b) = is_hex capitals a && is_hex capitals b.
Proof. unfold is_hex. rewrite chars_append. apply forallb_app. Qed.

Lemma concat_cons x xs : String.concat "" (x :: xs) = x +:+ String.concat "" xs.
Proof.
  destruct xs as [|y ys]; cbn [String.concat].
  - induction x as [|c x IH]; [reflexivity|].
    change (String c x +:+ "") with (String c (x +:+ "")). rewrite <- IH. reflexivity.
  - reflexivity.
Qed.

Lemma hex_bytes_format bytes :
  Forall (fun b => 0 <= b < 256) bytes ->
  String.length (String.concat "" (map hex2 bytes)) = (2 * length bytes)%nat
  /\ is_hex false (String.concat "" (map hex2 bytes)) = true.
Proof.
  induction 1 as [|b bytes Hb _ [IHlen IHhex]]; [split; reflexivity|].
  cbn [map]. rewrite concat_cons, is_hex_append, IHhex.
  destruct (hex2_format b Hb) as [Hlen Hhex]. rewrite Hhex.
  split; [|reflexivity].
  rewrite <- length_chars, chars_append, length_app, !length_chars, Hlen, IHlen.
  cbn [length]. lia.
Qed.

Lemma hexdigest_format msg :
  String.length (SHA256.hexdigest msg) = 64%nat /\ is_hex false (SHA256.hexdigest msg) = true.
Proof.
  destruct (digest_format msg) as [Hlen Hrange].
  destruct (hex_bytes_format (SHA256.digest msg) Hrange) as [Hl Hh].
  rewrite Hlen in Hl. split; [exact Hl|exact Hh].
Qed.

Lemma chars_take n : forall s, chars (take n s) = firstn n (chars s).
Proof.
  unfold take. induction n as [|n IH]; intros s.
  - destruct s; reflexivity.
  - destruct s as [|c s]; [reflexivity|].
    cbn [substring chars list_ascii_of_string firstn]. f_equal. apply IH.
Qed.

Lemma chars_text cs : chars (text cs) = cs.
Proof. apply list_ascii_of_string_of_list_ascii. Qed.

Lemma upper_char_hex c :
  isdigit c || ((97 <=? ord c) && (ord c <=? 102)) = true ->
  isdigit (upper_char c) || ((65 <=? ord (upper_char c)) && (ord (upper_char c) <=? 70))
  = true.
Proof.
  destruct c as [[] [] [] [] [] [] [] []]; vm_compute; intuition discriminate.
Qed.

Lemma short_id_format msg :
  String.length (upper (take 16 (SHA256.hexdigest msg))) = 16%nat
  /\ is_hex true (upper (take 16 (SHA256.hexdigest msg))) = true.
Proof.
  destruct (hexdigest_format msg) as [Hlen Hhex].
  unfold is_hex in *. rewrite <- length_chars in *.
  unfold upper. rewrite chars_text, chars_take. split.
  - rewrite length_map, length_firstn, Hlen. reflexivity.
  - rewrite forallb_forall in *. intros c Hc.
    apply in_map_iff in Hc as (c0 & <- & Hc0). apply upper_char_hex. apply Hhex.
    rewrite <- (firstn_skipn 16 (chars (SHA256.hexdigest msg))). apply in_or_app.
    left. exact Hc0.
Qed.

(** X18: a block hash and a certificate hash are 64 hexadecimal digits
    with lower-case letters; a certificate identifier is 16 hexadecimal
    digits with capitals, and a transaction identifier is "TXN-" followed
    by 16 such digits, whatever the data and the clock readings. *)
Theorem identifiers_are_hexadecimal block_data cert_data now device_info wipe_report :
  (String.length (_calculate_block_hash block_data) = 64%nat
   /\ is_hex false (_calculate_block_hash block_data) = true)
  /\ (String.length (Certificate._calculate_hash cert_data) = 64%nat
      /\ is_hex false (Certificate._calculate_hash cert_data) = true)
  /\ (String.length (Certificate._generate_cert_id now device_info wipe_report) = 16%nat
      /\ is_hex true (Certificate._generate_cert_id now device_info wipe_report) = true)
  /\ exists digits,
       _generate_transaction_id now device_info wipe_report = "TXN-" +:+ digits
       /\ String.length digits = 16%nat /\ is_hex true digits = true.
Proof.
  split; [apply hexdigest_format|]. split; [apply hexdigest_format|].
  split; [apply short_id_format|].
  eexists. split; [reflexivity|]. apply short_id_format.
Qed.

End FormatProps.

(** * Properties of the device listing *)

Module DeviceProps.
Import Py WipeService WipeSpec.

Lemma classified_type device ty : _classify_device device = Some ty -> In ty device_types.
Proof.
  unfold _classify_device.
  destruct (as_str (get device "tran" (JStr ""))) as [tran|]; [|discriminate].
  destruct (as_str (get device "model" (JStr ""))) as [model|]; [|discriminate].
  destruct (as_str (get device "name" (JStr ""))) as [name|]; [|discriminate].
  cbn [fmap option_fmap option_map mbind option_bind]. intros [= <-].
  unfold device_types.
  repeat match goal with
         | |- context [if ?b then _ else _] => destruct b
         end;
    cbn [In]; auto 6.
Qed.

Lemma listed_device flt incl device d :
  listed flt incl device = Some (Some d) ->
  In (d_type d) device_types /\ asked flt d
  /\ d_partition_count d = length (d_partitions d)
  /\ (incl = false -> d_partitions d = []).
Proof.
  unfold listed. destruct (as_dict device) as [kvs|]; [|discriminate].
  cbn [mbind option_bind].
  destruct (negb (Ledger.eq_str (get kvs "type" JNull) "disk")); [discriminate|].
  destruct (_classify_device kvs) as [ty|] eqn:Hty; [|discriminate].
  cbn [mbind option_bind].
  destruct (match flt with
            | Some t => truthy t && negb (String.eqb ty t)
            | None => false
            end) eqn:Hflt; [discriminate|].
  destruct (if incl then _ else _) as [ps|] eqn:Hps; [|discriminate].
  cbn [mbind option_bind].
  destruct (lookup "name" kvs) as [name|]; [|discriminate].
  cbn [mbind option_bind].
  destruct (as_str (get kvs "model" (JStr "Unknown"))) as [model|]; [|discriminate].
  destruct (as_str (get kvs "serial" (JStr "N/A"))) as [serial|]; [|discriminate].
  cbn [fmap option_fmap option_map mbind option_bind]. intros [= <-].
  cbn [d_type d_partition_count d_partitions].
  split; [exact (classified_type kvs ty Hty)|]. split; [|split; [reflexivity|]].
  - destruct flt as [t|]; [|exact I]. cbn [asked]. intros Hne.
    apply andb_false_iff in Hflt as [Hempty|Hsame].
    + unfold truthy in Hempty. apply negb_false_iff, String.eqb_eq in Hempty. contradiction.
    + apply negb_false_iff, String.eqb_eq in Hsame. exact Hsame.
  - intros ->. injection Hps as <-. reflexivity.
Qed.

Lemma scan_devices flt incl blockdevices : forall ds,
  scan flt incl blockdevices = Some ds ->
  Forall (fun d => In (d_type d) device_types /\ asked flt d
                   /\ d_partition_count d = length (d_partitions d)
                   /\ (incl = false -> d_partitions d = [])) ds.
Proof.
  induction blockdevices as [|device rest IH]; intros ds.
  - intros [= <-]. constructor.
  - cbn [scan]. destruct (listed flt incl device) as [entry|] eqn:Hentry; [|discriminate].
    cbn [mbind option_bind].
    destruct (scan flt incl rest) as [devices|]; [|discriminate].
    cbn [mbind option_bind]. intros [= <-]. specialize (IH devices eq_refl).
    destruct entry as [d|]; [|exact IH].
    constructor; [exact (listed_device flt incl device d Hentry)|exact IH].
Qed.

Lemma simulated_devices flt :
  Forall (fun d => In (d_type d) device_types /\ asked flt d
                   /\ d_partition_count d = length (d_partitions d)
                   /\ d_partitions d <> [])
         (_get_simulated_devices flt).
Proof.
  assert (Forall (fun d => In (d_type d) device_types
                           /\ d_partition_count d = length (d_partitions d)
                           /\ d_partitions d <> [])
                 (_get_simulated_devices None)) as Hall.
  { cbn [_get_simulated_devices]. unfold device_types.
    repeat constructor; cbn [d_type In]; auto 6; discriminate. }
  destruct flt as [t|].
  - change (_get_simulated_devices (Some t))
      with (if truthy t
            then List.filter (fun d => String.eqb (d_type d) t) (_get_simulated_devices None)
            else _get_simulated_devices None).
    cbn [asked]. unfold truthy.
    destruct (String.eqb_spec t "") as [->|Hne]; cbn [negb].
    + eapply Forall_impl; [exact Hall|]. cbn beta. intros d (Hty & Hcount & Hps).
      split; [exact Hty|]. split; [intros Hne; contradiction|]. split; assumption.
    + apply Forall_forall. intros d Hin%list_elem_of_In. apply filter_In in Hin as [Hin Heq].
      rewrite Forall_forall in Hall. apply list_elem_of_In in Hin.
      destruct (Hall d Hin) as (Hty & Hcount & Hps).
      split; [exact Hty|]. split; [|split; assumption].
      intros _. apply String.eqb_eq. exact Heq.
  - eapply Forall_impl; [exact Hall|]. cbn beta. intros d (Hty & Hcount & Hps).
    split; [exact Hty|]. split; [exact I|]. split; assumption.
Qed.

Lemma detected_or_simulated flt incl run :
  detect_devices flt incl run = _get_simulated_devices flt
  \/ exists blockdevices, scan flt incl blockdevices = Some (detect_devices flt incl run)
  \/ detect_devices flt incl run = [].
Proof.
  unfold detect_devices. destruct run as [|returncode stdout]; [left; reflexivity|].
  destruct (returncode =? 0); [|right; exists []; right; reflexivity].
  destruct stdout as [data|]; [|left; reflexivity]. cbn [mbind option_bind].
  destruct (as_dict data) as [d|]; [|left; reflexivity]. cbn [mbind option_bind].
  destruct (iterate (get d "blockdevices" (JList []))) as [blockdevices|];
    [|left; reflexivity].
  cbn [mbind option_bind].
  destruct (scan flt incl blockdevices) as [ds|] eqn:Hscan; [|left; reflexivity].
  right. exists blockdevices. left. exact Hscan.
Qed.

(** X19: whatever [lsblk] does, every device of a listing has one of the
    four types HDD, SSD, USB and Virtual, and when a type is asked for,
    every device listed has that type. *)
Theorem listed_devices_have_the_type_asked flt incl run :
  Forall (fun d => In (d_type d) device_types /\ asked flt d) (detect_devices flt incl run).
Proof.
  destruct (detected_or_simulated flt incl run) as [->|[blockdevices [Hscan| ->]]].
  - eapply Forall_impl; [apply simulated_devices|]. cbn beta. tauto.
  - eapply Forall_impl; [exact (scan_devices flt incl blockdevices _ Hscan)|].
    cbn beta. tauto.
  - constructor.
Qed.

Lemma sum_counts (ds : list device_info) : forall n,
  Forall (fun d => d_partition_count d = length (d_partitions d)) ds ->
  fold_left Nat.add (map d_partition_count ds) n
  = (n + length (concat (map d_partitions ds)))%nat.
Proof.
  induction ds as [|d ds IH]; intros n Hall; [cbn; lia|].
  inversion Hall as [|? ? Hd Hds]; subst.
  cbn [map fold_left concat]. rewrite (IH _ Hds), length_app, Hd. lia.
Qed.

(** X20: in the answer to a request for the devices, the count is the
    number of devices listed, every device's partition count is the number
    of partitions listed with it, and the total is the number of all
    partitions listed, whatever [lsblk] does. *)
Theorem partition_counts_add_up type_arg partitions_arg run :
  let answer := App.get_devices type_arg partitions_arg run in
  App.count answer = length (App.devices answer)
  /\ Forall (fun d => d_partition_count d = length (d_partitions d)) (App.devices answer)
  /\ App.total_partitions answer = length (concat (map d_partitions (App.devices answer))).
Proof.
  unfold App.get_devices. cbn [App.count App.devices App.total_partitions].
  set (incl := String.eqb (lower (App.or_default partitions_arg "true")) "true").
  assert (Forall (fun d => d_partition_count d = length (d_partitions d))
                 (detect_devices type_arg incl run)) as Hall.
  { destruct (detected_or_simulated type_arg incl run) as [->|[blockdevices [Hscan| ->]]].
    - eapply Forall_impl; [apply simulated_devices|]. cbn beta. tauto.
    - eapply Forall_impl; [exact (scan_devices type_arg incl blockdevices _ Hscan)|].
      cbn beta. tauto.
    - constructor. }
  split; [reflexivity|]. split; [exact Hall|]. apply (sum_counts _ 0%nat Hall).
Qed.

(** X21: a listing made without partitions carries none, unless it is the
    simulated one, whose devices all come with their partitions whether
    these were asked for or not. *)
Theorem partitions_only_when_asked flt run :
  (detect_devices flt false run = _get_simulated_devices flt
   \/ Forall (fun d => d_partitions d = [] /\ d_partition_count d = 0%nat)
             (detect_devices flt false run))
  /\ Forall (fun d => d_partitions d <> []) (detect_devices flt false NotRun).
Proof.
  split.
  - destruct (detected_or_simulated flt false run) as [->|[blockdevices [Hscan| ->]]].
    + left. reflexivity.
    + right. eapply Forall_impl; [exact (scan_devices flt false blockdevices _ Hscan)|].
      cbn beta. intros d (_ & _ & Hcount & Hnone). rewrite Hcount, (Hnone eq_refl).
      split; reflexivity.
    + right. constructor.
  - change (detect_devices flt false NotRun) with (_get_simulated_devices flt).
    eapply Forall_impl; [apply simulated_devices|]. cbn beta. tauto.
Qed.

Lemma scan_raises flt incl blockdevices device :
  In device blockdevices -> listed flt incl device = None ->
  scan flt incl blockdevices = None.
Proof.
  induction blockdevices as [|x rest IH]; intros Hin Hnone; [contradiction|].
  cbn [scan]. destruct Hin as [->|Hin].
  - rewrite Hnone. reflexivity.
  - rewrite (IH Hin Hnone). destruct (listed flt incl x); reflexivity.
Qed.

(** X22: when [lsblk] exits with an error the listing is empty. When it
    succeeds and some disk that is to be listed has a serial number that is
    not text, as the null of a disk without one, or no name, the listing
    is not the machine's but the simulated one, the other disks included. *)
Theorem faulty_listing flt incl :
  (forall returncode stdout,
     returncode <> 0 -> detect_devices flt incl (Ran returncode stdout) = [])
  /\ (forall data blockdevices device ty,
        iterate (get data "blockdevices" (JList [])) = Some blockdevices ->
        In (JDict device) blockdevices ->
        get device "type" JNull = JStr "disk" ->
        _classify_device device = Some ty ->
        match flt with Some t => t = "" \/ t = ty | None => True end ->
        as_str (get device "serial" (JStr "N/A")) = None \/ lookup "name" device = None ->
        detect_devices flt incl (Ran 0 (Some (JDict data))) = _get_simulated_devices flt).
Proof.
  split.
  - intros returncode stdout Hrc. unfold detect_devices.
    destruct (Z.eqb_spec returncode 0); [contradiction|reflexivity].
  - intros data blockdevices device ty Hiter Hin Hdisk Hty Hflt Hbad.
    unfold detect_devices. cbn [Z.eqb mbind option_bind as_dict]. rewrite Hiter.
    cbn [mbind option_bind].
    rewrite (scan_raises flt incl blockdevices (JDict device) Hin); [reflexivity|].
    unfold listed. cbn [as_dict mbind option_bind]. rewrite Hdisk, Hty.
    cbn [Ledger.eq_str String.eqb Ascii.eqb Bool.eqb negb mbind option_bind].
    assert (match flt with
            | Some t => truthy t && negb (String.eqb ty t)
            | None => false
            end = false) as ->.
    { destruct flt as [t|]; [|reflexivity]. destruct Hflt as [->| ->].
      - reflexivity.
      - rewrite String.eqb_refl, andb_false_r. reflexivity. }
    destruct (if incl then _ else _) as [ps|]; [|reflexivity]. cbn [mbind option_bind].
    destruct Hbad as [Hserial|Hname].
    + destruct (lookup "name" device); [|reflexivity]. cbn [mbind option_bind].
      rewrite Hserial. destruct (as_str (get device "model" (JStr "Unknown"))); reflexivity.
    + rewrite Hname. reflexivity.
Qed.

Lemma faulty_listing_witness :
  detect_devices None true (Ran 32 None) = []
  /\ map d_name (detect_devices None true WipeExamples.one_disk) = ["/dev/sda"]
  /\ map d_name (detect_devices None true WipeExamples.two_disks)
     = ["/dev/sda"; "/dev/sdb"; "/dev/sdc"; "/dev/vda"].
Proof.
  destruct (faulty_listing None true) as [Hfailed Hnull].
  split; [apply Hfailed; discriminate|]. split; [vm_compute; reflexivity|].
  unfold WipeExamples.two_disks.
  rewrite (Hnull [("blockdevices", JList [WipeExamples.sda; JDict WipeExamples.vda])]
             [WipeExamples.sda; JDict WipeExamples.vda] WipeExamples.vda "HDD").
  - reflexivity.
  - reflexivity.
  - right. left. reflexivity.
  - reflexivity.
  - reflexivity.
  - exact I.
  - left. reflexivity.
Defined.

End DeviceProps.

(** * Properties of the request handlers *)

Module AppProps.
Import Py Ledger LedgerSpec LedgerProps WipeService WipeSpec WipeProps.


(** ** Certificates and the ledger *)





(** X25: a request for a certificate changes the ledger file only when it
    asks for recording and succeeds, and then by one block appended; a
    request that does not ask for recording, or one that fails, for want of
    a serial number in the device descriptor or of a readable ledger,
    leaves the file as it was. *)
Theorem ledger_changes_only_by_a_recording here t wr di record f :
  snd (App.generate_certificate here t wr di record f) = f
  \/ (record = true
      /\ exists (c : App.issued) (l : ledger) (nb : block),
           f = Stored l
           /\ App.generate_certificate here t wr di record f
              = (Ok c, Stored (with_blocks l (blocks l ++ [nb]))))
  .
Proof.
  unfold App.generate_certificate. destruct record.
  - destruct (Certificate.generate_certificate (App.draft_stamp t) (App.draft_now t)
                wr di None) as [temp|e] eqn:Htemp; [|left; reflexivity].
    unfold record_erasure.
    change (String.eqb (ledger_type (App.ledger_service here)) "local") with true.
    cbn iota.
    destruct f as [|e|l]; [left; reflexivity|left; reflexivity|].
    rewrite LedgerMore.record_local_stored.
    destruct (Certificate.generate_certificate (App.final_stamp t) (App.final_now t)
                wr di _) as [final|e] eqn:Hfinal.
    + right. split; [reflexivity|]. do 3 eexists. split; reflexivity.
    + exfalso. unfold Certificate.generate_certificate, getitem in Htemp, Hfinal.
      destruct (Py.lookup "serial" di); cbn [bind] in *; discriminate.
  - destruct (Certificate.generate_certificate (App.final_stamp t) (App.final_now t)
                wr di None); left; reflexivity.
Qed.

(** ** A ledger of the other type *)

(** X26: with the ledger type "hyperledger" nothing is kept and nothing
    is checked: recording answers with an entry and leaves the file alone,
    every verification answers found and VALID whatever is asked, the
    search by serial number finds nothing, and the statistics are the bare
    type. *)
Theorem hyperledger_is_a_placeholder self :
  ledger_type self = "hyperledger" ->
  (forall now_txn now_block epoch cd wr di f,
     exists e, record_erasure self now_txn now_block epoch cd wr di f = (Ok e, f))
  /\ (forall cid sn ch f,
        exists v, verify_certificate self cid sn ch f = (Some v, f)
                  /\ found v = true /\ verification_status v = VALID /\ report v = None)
  /\ (forall serial f, search_by_serial self serial f = (Ok [], f))
  /\ (forall f, get_ledger_stats self f = NotLocal "hyperledger").
Proof.
  intros Htype.
  unfold record_erasure, verify_certificate, search_by_serial, get_ledger_stats.
  rewrite Htype. change (String.eqb "hyperledger" "local") with false.
  change (String.eqb "hyperledger" "hyperledger") with true. cbn [negb].
  split; [|split; [|split]].
  - intros. eexists. reflexivity.
  - intros. eexists. split; [reflexivity|]. repeat split; reflexivity.
  - reflexivity.
  - reflexivity.
Qed.

Lemma hyperledger_is_a_placeholder_witness :
  search_by_serial {| ledger_path := "../data/ledger.json"; ledger_type := "hyperledger" |}
    "WD-WCC123456789" Absent = (Ok [], Absent).
Proof.
  apply (hyperledger_is_a_placeholder
           {| ledger_path := "../data/ledger.json"; ledger_type := "hyperledger" |} eq_refl).
Defined.

End AppProps.
